(** * Deployment and funding orchestration of the NIL agent

    A shallow embedding of the TypeScript sources of the nil-contract
    action provider (current and legacy revision), the supply-chain action
    provider and the deploy-supply-chain script, together with the
    properties of the funding guard, the confirmation poller, the strategy
    selection and the dependent deployment sequence.

    Layout: JavaScript runtime helpers, the effect model (collaborator
    interface, trace monad), the embedded source functions, concrete
    collaborators used in examples, and finally the theorems. *)

From Stdlib Require Import ZArith Lia Strings.Byte Strings.Ascii.
From stdpp Require Import gmap strings list.

Local Open Scope Z_scope.

(* ===================================================================== *)
(** ** JavaScript runtime helpers *)
(* ===================================================================== *)

Module Js.

(** BigInt division [a / b] truncates toward zero. *)
Definition bigint_div (a b : Z) : Z := Z.quot a b.

(** Values passed as constructor arguments. *)
Inductive Value :=
| VNum (n : Z)
| VStr (s : string)
| VBytes (bs : list byte).

(** A contract code blob as returned by [getCode]: the sources type it
    [Uint8Array | string] and also guard against a falsy value. *)
Inductive Code :=
| CodeMissing
| CodeBytes (bs : list byte)
| CodeString (s : string).

(** [code.length] for the two representations. *)
Definition code_length (c : Code) : Z :=
  match c with
  | CodeMissing => 0
  | CodeBytes bs => Z.of_nat (length bs)
  | CodeString s => Z.of_nat (String.length s)
  end.

(** Truthiness of a code value ([''] is the only falsy string, a typed
    array is always truthy). *)
Definition code_truthy (c : Code) : bool :=
  match c with
  | CodeMissing => false
  | CodeBytes _ => true
  | CodeString s => negb (String.eqb s "")
  end.

(** Lower-case hexadecimal digit of a nibble. *)
Definition hex_digit (n : N) : ascii :=
  match n with
  | 0 => "0" | 1 => "1" | 2 => "2" | 3 => "3" | 4 => "4" | 5 => "5"
  | 6 => "6" | 7 => "7" | 8 => "8" | 9 => "9" | 10 => "a" | 11 => "b"
  | 12 => "c" | 13 => "d" | 14 => "e" | _ => "f"
  end%N%char.

(** [Buffer.toString('hex')]: two digits per byte. *)
Fixpoint toString_hex (bs : list byte) : string :=
  match bs with
  | [] => EmptyString
  | b :: rest =>
      String (hex_digit (Byte.to_N b / 16))
        (String (hex_digit (Byte.to_N b mod 16)) (toString_hex rest))
  end.

(** niljs [bytesToHex]: the digits behind a [0x] prefix. *)
Definition bytesToHex (bs : list byte) : string :=
  String "0" (String "x" (toString_hex bs)).

(** [new Uint8Array(n)]: [n] zero bytes. *)
Definition new_Uint8Array (n : nat) : list byte := repeat Byte.x00 n.

(** Value of one hexadecimal digit. *)
Definition hex_value (c : ascii) : option Z :=
  let n := Z.of_N (N_of_ascii c) in
  if (48 <=? n) && (n <=? 57) then Some (n - 48)
  else if (97 <=? n) && (n <=? 102) then Some (n - 87)
  else if (65 <=? n) && (n <=? 70) then Some (n - 55)
  else None.

Fixpoint parse_hex (s : string) (acc : Z) : option Z :=
  match s with
  | EmptyString => Some acc
  | String c rest =>
      match hex_value c with
      | Some d => parse_hex rest (16 * acc + d)
      | None => None
      end
  end.

(** [BigInt('0x...')] on a prefixed hexadecimal literal; [None] stands for
    the SyntaxError raised on anything else. *)
Definition BigInt_of_hex (s : string) : option Z :=
  match s with
  | String "0" (String "x" (String c rest)) => parse_hex (String c rest) 0
  | _ => None
  end.

(** Truthiness of a value. *)
Definition truthy (v : Value) : bool :=
  match v with
  | VNum n => negb (n =? 0)
  | VStr s => negb (String.eqb s "")
  | VBytes _ => true
  end.

(** [x || d] on a possibly undefined property. *)
Definition or_default (x : option Value) (d : Value) : Value :=
  match x with
  | Some v => if truthy v then v else d
  | None => d
  end.

(** The characters [String.prototype.trim] removes that occur in
    bytecode literals: space, tab, line feed, carriage return. *)
Definition is_blank (c : ascii) : bool :=
  let n := N_of_ascii c in
  ((n =? 32) || (n =? 9) || (n =? 10) || (n =? 13))%N.

Fixpoint trim_start (s : string) : string :=
  match s with
  | EmptyString => EmptyString
  | String c rest => if is_blank c then trim_start rest else s
  end.

Definition trim (s : string) : string :=
  String.rev (trim_start (String.rev (trim_start s))).

(** [bytes.slice(-n)]: the last [n] elements. *)
Definition slice_last {A} (n : nat) (l : list A) : list A :=
  drop (length l - n)%nat l.

(** niljs [hexToBytes] on the digits of a hexadecimal string. *)
Fixpoint hex_pairs (s : string) : option (list byte) :=
  match s with
  | EmptyString => Some []
  | String _ EmptyString => None
  | String a (String b rest) =>
      match hex_value a, hex_value b, hex_pairs rest with
      | Some x, Some y, Some bs =>
          match Byte.of_N (Z.to_N (16 * x + y)) with
          | Some bt => Some (bt :: bs)
          | None => None
          end
      | _, _, _ => None
      end
  end.

(** niljs [hexToBytes]: the bytes of a [0x]-prefixed string; [None] stands
    for the exception raised on a string that is not hexadecimal. *)
Definition hexToBytes (s : string) : option (list byte) :=
  match s with
  | String "0" (String "x" rest) => hex_pairs rest
  | _ => hex_pairs s
  end.

(** A double in the half-open unit interval, as produced by
    [Math.random()]: the value [(ud_mant mod 2^53) * 2^-(53 + e)] with
    [e = min ud_exp 1021].  Every double in [0,1) has this form and
    every such value is a double. *)
Record UnitDouble := { ud_mant : Z; ud_exp : nat }.

Definition ud_m (d : UnitDouble) : Z := ud_mant d mod 2 ^ 53.
Definition ud_e (d : UnitDouble) : Z := 53 + Z.of_nat (Nat.min (ud_exp d) 1021).

(** Round a non-negative integer to 53 significant bits, nearest with
    ties to even: the significand rounding of IEEE-754 binary64. *)
Definition round53 (a : Z) : Z :=
  if a <? 2 ^ 53 then a
  else
    let sh := Z.log2 a - 52 in
    let q := a / 2 ^ sh in
    let r := a mod 2 ^ sh in
    let half := 2 ^ (sh - 1) in
    let q' :=
      if r <? half then q
      else if half <? r then q + 1
      else if Z.even q then q else q + 1 in
    q' * 2 ^ sh.

(** [d * k] for a positive integer constant [k]: the exact product is
    rounded to a double; the result is the numerator over [2^(ud_e d)]. *)
Definition mul_const (d : UnitDouble) (k : Z) : Z := round53 (ud_m d * k).

(** [Math.floor] of a non-negative double given as numerator over [2^e]. *)
Definition Math_floor (num e : Z) : Z := num / 2 ^ e.

(** [Math.floor(d * k)]. *)
Definition floor_mul (d : UnitDouble) (k : Z) : Z :=
  Math_floor (mul_const d k) (ud_e d).

(** [s.slice(n)]: the string without its first [n] characters. *)
Fixpoint slice (n : nat) (s : string) : string :=
  match n, s with
  | O, _ => s
  | S n', String _ rest => slice n' rest
  | S _, EmptyString => EmptyString
  end.

End Js.

(* ===================================================================== *)
(** ** Effect model *)
(* ===================================================================== *)

Definition Address := string.
Definition Hash := string.

(** Thrown values. *)
Inductive JsError :=
| ErrorObj (message : string)
| NonError
| ContractDeploymentError (contractType message : string).

(** [error instanceof Error ? error.message : 'Unknown error'];
    [ContractDeploymentError] prefixes its message in the constructor. *)
Definition error_message (e : JsError) : string :=
  match e with
  | ErrorObj m => m
  | NonError => "Unknown error"
  | ContractDeploymentError t m =>
      "Failed to deploy " +:+ t +:+ " contract: " +:+ m
  end.

Inductive Exc (A : Type) :=
| Ok (a : A)
| Throw (e : JsError).
Arguments Ok {A} a.
Arguments Throw {A} e.

(** Status strings of a transaction receipt that the poller tells apart. *)
Inductive ReceiptStatus :=
| StatusSuccess
| StatusInsufficientFunds
| StatusOther (s : string).

Record Receipt := { receipt_status : ReceiptStatus }.

(** Parameters of a contract deployment (niljs [deployContract] and
    [externalDeploymentTransaction]). *)
Record DeployData := {
  dd_bytecode : string;
  dd_abi : list string;
  dd_args : list Js.Value;
  dd_feeCredit : Z;
  dd_salt : Z;
  dd_shard : Z
}.

(** What the compilation step of the deployment script extracts from the
    compiler output. *)
Record Artifacts := {
  retailerBytecode : string;
  manufacturerBytecode : string;
  retailerAbi : list string;
  manufacturerAbi : list string
}.

(** One interaction with the outside world, with its answer ([None] or
    [false]: the call threw). *)
Inductive Event :=
| EGetBalance (addr : Address) (res : option Z)
| ETopUp (addr : Address) (amount : Z) (token : option string) (ok : bool)
| ESleep (ms : Z)
| EGetCode (addr : Address) (res : option Js.Code)
| EWaitTillCompleted (hash : Hash) (ok : bool)
| EGetReceipt (hash : Hash) (res : option (option Receipt))
| EGetGasPrice (shard : Z) (res : option Z)
| EChainId (res : option Z)
| EGenerateSmartAccount (shard : Z) (res : option Address)
| EAccountDeploy (account : Address) (d : DeployData) (res : option (Address * Hash))
| EExternalTx (d : DeployData) (chain : Z) (res : option Address)
| EExternalSend (to : Address) (res : option Hash)
| ERandom (d : Js.UnitDouble)
| ERandomBytes (bs : list byte)
| EGenerateKeyPair (publicKey : list byte)
| ECompile (ok : bool)
| EWriteFiles (ok : bool).

(** The collaborators: ledger RPC client, faucet, niljs account and
    transaction helpers, and the runtime's randomness, as transitions of
    an arbitrary world [W].  [c_sleep] lets the world move while the
    program waits. *)
Record Collab (W : Type) := {
  c_getBalance : Address -> W -> Exc Z * W;
  c_topUp : Address -> Z -> option string -> W -> Exc unit * W;
  c_sleep : Z -> W -> W;
  c_getCode : Address -> W -> Exc Js.Code * W;
  c_waitTillCompleted : Hash -> W -> Exc unit * W;
  c_getReceipt : Hash -> W -> Exc (option Receipt) * W;
  c_getGasPrice : Z -> W -> Exc Z * W;
  c_chainId : W -> Exc Z * W;
  c_generateSmartAccount : Z -> W -> Exc Address * W;
  c_accountDeploy : Address -> DeployData -> W -> Exc (Address * Hash) * W;
  c_externalTx : DeployData -> Z -> W -> Exc Address * W;
  c_externalSend : Address -> W -> Exc Hash * W;
  c_random : W -> Js.UnitDouble * W;
  c_randomBytes : nat -> W -> list byte * W;
  c_generateKeyPair : W -> (list byte * list byte) * W;
  c_compile : W -> Exc (option Artifacts) * W;
  c_writeFiles : W -> Exc unit * W
}.
Arguments c_getBalance {W}.
Arguments c_topUp {W}.
Arguments c_sleep {W}.
Arguments c_getCode {W}.
Arguments c_waitTillCompleted {W}.
Arguments c_getReceipt {W}.
Arguments c_getGasPrice {W}.
Arguments c_chainId {W}.
Arguments c_generateSmartAccount {W}.
Arguments c_accountDeploy {W}.
Arguments c_externalTx {W}.
Arguments c_externalSend {W}.
Arguments c_random {W}.
Arguments c_randomBytes {W}.
Arguments c_generateKeyPair {W}.
Arguments c_compile {W}.
Arguments c_writeFiles {W}.

(** A [PublicClient] object; [client_ref] is its identity on the heap. *)
Record PublicClient := {
  client_ref : nat;
  client_shardId : Z
}.

(** The provider's [clients] map ([Map<number, PublicClient>]) and the
    allocation counter that gives each [new PublicClient] its identity. *)
Record Registry := {
  clients : gmap Z PublicClient;
  allocated : nat
}.

(** The state a method runs in: the provider's registry and the outside
    world. *)
Record Runtime (W : Type) := {
  registry : Registry;
  world : W
}.
Arguments registry {W}.
Arguments world {W}.
Arguments Build_Runtime {W}.

(** Computations: state passing, exceptions, and the trace of events the
    computation emitted. *)
Definition M (W A : Type) : Type := Runtime W -> Exc A * Runtime W * list Event.

Definition ret {W A} (a : A) : M W A := fun s => (Ok a, s, []).

Definition throw {W A} (e : JsError) : M W A := fun s => (Throw e, s, []).

Definition bind {W A B} (m : M W A) (k : A -> M W B) : M W B :=
  fun s =>
    match m s with
    | (Ok a, s1, t1) =>
        match k a s1 with
        | (r, s2, t2) => (r, s2, t1 ++ t2)
        end
    | (Throw e, s1, t1) => (Throw e, s1, t1)
    end.

(** [try { m } catch (error) { h error }]. *)
Definition try_catch {W A} (m : M W A) (h : JsError -> M W A) : M W A :=
  fun s =>
    match m s with
    | (Ok a, s1, t1) => (Ok a, s1, t1)
    | (Throw e, s1, t1) =>
        match h e s1 with
        | (r, s2, t2) => (r, s2, t1 ++ t2)
        end
    end.

Declare Scope m_scope.
Delimit Scope m_scope with M.
Notation "'let*' x := m 'in' k" := (bind m (fun x => k))
  (at level 10, x name, m at level 100, k at level 200) : m_scope.
Notation "'run' m 'in' k" := (bind m (fun _ => k))
  (at level 10, m at level 100, k at level 200) : m_scope.

(** Lift a world transition, recording the event built from its answer. *)
Definition call {W A} (f : W -> Exc A * W) (ev : Exc A -> Event) : M W A :=
  fun s =>
    match f (world s) with
    | (r, w') =>
        (r, Build_Runtime (registry s) w', [ev r])
    end.

Definition exc_opt {A} (r : Exc A) : option A :=
  match r with Ok a => Some a | Throw _ => None end.

Definition exc_ok {A} (r : Exc A) : bool :=
  match r with Ok _ => true | Throw _ => false end.

Section Primitives.
Context {W : Type} (C : Collab W).

Definition getBalance (a : Address) : M W Z :=
  call (c_getBalance C a) (fun r => EGetBalance a (exc_opt r)).

Definition topUp (a : Address) (amount : Z) (token : option string) : M W unit :=
  call (c_topUp C a amount token) (fun r => ETopUp a amount token (exc_ok r)).

(** [await new Promise(resolve => setTimeout(resolve, ms))]. *)
Definition sleep (ms : Z) : M W unit :=
  fun s =>
    (Ok tt, Build_Runtime (registry s) (c_sleep C ms (world s)),
     [ESleep ms]).

Definition getCode (a : Address) : M W Js.Code :=
  call (c_getCode C a) (fun r => EGetCode a (exc_opt r)).

Definition waitTillCompleted (h : Hash) : M W unit :=
  call (c_waitTillCompleted C h) (fun r => EWaitTillCompleted h (exc_ok r)).

Definition getTransactionReceiptByHash (h : Hash) : M W (option Receipt) :=
  call (c_getReceipt C h) (fun r => EGetReceipt h (exc_opt r)).

Definition getGasPrice (shard : Z) : M W Z :=
  call (c_getGasPrice C shard) (fun r => EGetGasPrice shard (exc_opt r)).

Definition chainId : M W Z :=
  call (c_chainId C) (fun r => EChainId (exc_opt r)).

Definition generateSmartAccount (shard : Z) : M W Address :=
  call (c_generateSmartAccount C shard)
       (fun r => EGenerateSmartAccount shard (exc_opt r)).

(** [smartAccount.deployContract({...})]. *)
Definition account_deployContract (account : Address) (d : DeployData)
  : M W (Address * Hash) :=
  call (c_accountDeploy C account d) (fun r => EAccountDeploy account d (exc_opt r)).

(** [externalDeploymentTransaction({...}, chainId)]; the answer is the
    transaction's [to] field rendered by [bytesToHex]. *)
Definition externalDeploymentTransaction (d : DeployData) (chain : Z) : M W Address :=
  call (c_externalTx C d chain) (fun r => EExternalTx d chain (exc_opt r)).

(** [deploymentTransaction.send(client)]. *)
Definition deploymentTransaction_send (to : Address) : M W Hash :=
  call (c_externalSend C to) (fun r => EExternalSend to (exc_opt r)).

Definition Math_random : M W Js.UnitDouble :=
  fun s =>
    match c_random C (world s) with
    | (d, w') => (Ok d, Build_Runtime (registry s) w', [ERandom d])
    end.

Definition crypto_randomBytes (n : nat) : M W (list byte) :=
  fun s =>
    match c_randomBytes C n (world s) with
    | (bs, w') =>
        (Ok bs, Build_Runtime (registry s) w', [ERandomBytes bs])
    end.

(** [crypto.generateKeyPairSync('ed25519', ...)]: the DER encodings of
    the public and the private key. *)
Definition crypto_generateKeyPairSync : M W (list byte * list byte) :=
  fun s =>
    match c_generateKeyPair C (world s) with
    | (kp, w') =>
        (Ok kp, Build_Runtime (registry s) w', [EGenerateKeyPair (fst kp)])
    end.

(** The compiler run of the deployment script (solc through [execSync],
    reading and parsing its output): the artifacts, [None] where the
    script returns early, or an exception. *)
Definition compileContracts : M W (option Artifacts) :=
  call (c_compile C) (fun r => ECompile (exc_ok r)).

(** The script's [fs.writeFileSync] calls after a complete deployment. *)
Definition writeDeploymentFiles : M W unit :=
  call (c_writeFiles C) (fun r => EWriteFiles (exc_ok r)).

(** [new PublicClient({...})] outside the registry. *)
Definition new_PublicClient (shard : Z) : M W PublicClient :=
  fun s =>
    (Ok {| client_ref := allocated (registry s); client_shardId := shard |},
     Build_Runtime
       {| clients := clients (registry s); allocated := S (allocated (registry s)) |}
       (world s),
     []).

End Primitives.

(* ===================================================================== *)
(** ** The nil-contract action provider (current revision) *)
(* ===================================================================== *)

Module NilContract.

(** [getClient]: create the shard's client on first use, then hand out
    the stored one.  The last line is [this.clients.get(shardId)!]. *)
Definition getClient (shardId : Z) (r : Registry) : option PublicClient * Registry :=
  let r1 :=
    if negb (bool_decide (is_Some (clients r !! shardId))) then
      {| clients :=
           <[shardId := {| client_ref := allocated r; client_shardId := shardId |}]>
             (clients r);
         allocated := S (allocated r) |}
    else r in
  (clients r1 !! shardId, r1).

Definition isEmptyCode (code : Js.Code) : bool :=
  if negb (Js.code_truthy code) then true
  else
    match code with
    | Js.CodeBytes bs => Js.code_length code =? 0
    | Js.CodeString s => String.eqb s "0x" || String.eqb s ""
    | Js.CodeMissing => true
    end.

Definition normalizeAddress (address : string) : string :=
  if String.prefix "0x" address then address else "0x" +:+ address.

(** The [ExternalTransactionEnvelope] built by [calculateContractAddress];
    its constructor stores the fields it is given. *)
Record ExternalTransactionEnvelope := {
  isDeploy : bool;
  env_chainId : Z;
  to : list byte;
  data : list byte;
  authData : list byte;
  seqno : Z
}.

(** [calculateContractAddress]: no awaited call inside, so it is a pure
    function that returns or throws.  [hexToBytes] is the niljs decoder,
    [None] standing for an exception. *)
Definition calculateContractAddress
    (hexToBytes : string -> option (list byte))
    (shardId : Z) (salt : Z) (bytecode : string) (abi : list string) (chainId : Z)
  : Exc string :=
  match hexToBytes bytecode with
  | Some bytes =>
      let transaction :=
        {| isDeploy := true;
           env_chainId := chainId;
           to := Js.new_Uint8Array 20;
           data := bytes;
           authData := Js.new_Uint8Array 0;
           seqno := 0 |} in
      Ok (Js.bytesToHex (to transaction))
  | None =>
      Throw (ContractDeploymentError "unknown"
               "Failed to calculate contract address: invalid hex")
  end.

(** The per-class multiplier of [deployContract], written with the
    BigInt operators of the source. *)
Definition contractComplexityMultiplier (contractType : string) : Z :=
  if String.eqb contractType "TOKEN" then 2
  else if String.eqb contractType "NFT" then Js.bigint_div (5 * 10) 20
  else Js.bigint_div (12 * 10) 10.

Definition feeCredit (contractType : string) (gasPrice : Z) : Z :=
  contractComplexityMultiplier contractType * gasPrice.

Record DeploymentParams := {
  p_bytecode : string;
  p_abi : list string;
  p_args : list Js.Value;
  p_feeCredit : Z;
  p_salt : option Z;
  p_shardId : Z
}.

(** The validated arguments of the deploy action, with the extra
    properties the method reads from them. *)
Record DeployArgs := {
  contractType : string;
  shardId : Z;
  constructorArgs : option (list Js.Value);
  salt : option Z;
  useInternalDeployment : bool;
  initialValue : option Js.Value;
  maxValue : option Js.Value;
  tokenName : option Js.Value;
  tokenSymbol : option Js.Value;
  tokenDecimals : option Js.Value;
  tokenSupply : option Js.Value;
  nftName : option Js.Value;
  nftSymbol : option Js.Value;
  nftBaseUri : option Js.Value
}.

Record ContractDetails := {
  cd_bytecode : string;
  cd_abi : option (list string)
}.

(** The reports [deployContract] returns; each constructor stands for one
    of its message templates and carries the interpolated values. *)
Inductive DeployReport :=
| ShardNotAvailable (shard : Z)
| ShardInactive (shard : Z)
| VerificationTimedOut (ctype : string) (addr : Address) (hash : Hash) (shard : Z)
| DeployedInternal (ctype : string) (addr : Address) (hash : Hash) (shard : Z)
| FundingIssues (addr : Address) (hash : Hash) (shard : Z)
| DeployedExternal (ctype : string) (addr : Address) (hash : Hash) (shard : Z).

Definition attempt_range (lo hi : nat) : list Z :=
  map Z.of_nat (seq lo (S hi - lo)).

Section Provider.
Context {W : Type} (C : Collab W).
(** The table of deployable contracts ([./constants]). *)
Variable CONTRACT_TYPES : gmap string ContractDetails.

Local Open Scope m_scope.

Definition this_getClient (shard : Z) : M W PublicClient :=
  fun s =>
    match getClient shard (registry s) with
    | (Some c, r1) => (Ok c, Build_Runtime r1 (world s), [])
    | (None, r1) =>
        (Throw (ErrorObj "client is undefined"), Build_Runtime r1 (world s), [])
    end.

Definition generateRandomSalt : M W Z :=
  let* d := Math_random C in
  let randomValue := Js.floor_mul d 10000 in
  ret randomValue.

(** One pass of the [for] loop over [attempts]; the body's [true]
    is the [return true], its [false] the fall-through or [continue]. *)
Fixpoint topUpAttempts (address : Address) (requiredAmount : Z) (attempts : list Z)
  : M W bool :=
  match attempts with
  | [] => ret false
  | amount :: rest =>
      let* returned := try_catch
                (run topUp C address amount (Some "NIL") in
                 let* newBalance := getBalance C address in
                 if requiredAmount <=? newBalance then ret true
                 else run sleep C 2000 in ret false)
                (fun _ => ret false) in
      if (returned : bool) then ret true
      else topUpAttempts address requiredAmount rest
  end.

Definition ensureAdequateFunding
    (address : Address) (requiredAmount : Z) (client : PublicClient) : M W bool :=
  try_catch
    (let* currentBalance := getBalance C address in
     if requiredAmount <=? currentBalance then ret true
     else
       let neededAmount := requiredAmount - currentBalance in
       let attempts :=
         [ requiredAmount * 2;
           requiredAmount;
           Js.bigint_div requiredAmount 2 ] in
       topUpAttempts address requiredAmount attempts)
    (fun _ => ret false).

Fixpoint pollCode (address : Address) (attempts : list Z) : M W bool :=
  match attempts with
  | [] => ret false
  | attempt :: rest =>
      let* code := getCode C address in
      if negb (isEmptyCode code) then ret true
      else
        run (if attempt <? 30
             then sleep C (Z.min (5 + attempt) 30 * 1000)
             else ret tt) in
        pollCode address rest
  end.

Definition waitForContractDeployment
    (client : PublicClient) (address : Address) (hash : Hash) : M W bool :=
  try_catch
    (run waitTillCompleted C hash in
     let* receipt := getTransactionReceiptByHash C hash in
     match receipt with
     | None => ret false
     | Some r =>
         match receipt_status r with
         | StatusInsufficientFunds => ret false
         | StatusOther _ => ret false
         | StatusSuccess => pollCode address (attempt_range 1 30)
         end
     end)
    (fun _ => ret false).

Definition deployContractExternal
    (client : PublicClient) (params : DeploymentParams) (chain : Z)
  : M W (Hash * Address) :=
  try_catch
    (let* salt := generateRandomSalt in
     let* contractAddress := externalDeploymentTransaction C
         {| dd_bytecode := p_bytecode params;
            dd_abi := p_abi params;
            dd_args := p_args params;
            dd_feeCredit := p_feeCredit params;
            dd_salt := salt;
            dd_shard := p_shardId params |} chain in
     let requiredFunding := p_feeCredit params * 3 in
     let* fundingSuccess := ensureAdequateFunding contractAddress requiredFunding client in
     if negb fundingSuccess then
       throw (ErrorObj
         "Failed to adequately fund contract address after multiple attempts")
     else
       run sleep C 5000 in
       let* hash := deploymentTransaction_send C contractAddress in
       ret (hash, contractAddress))
    (fun error => throw error).

Definition deployContractInternal
    (client : PublicClient) (params : DeploymentParams) : M W (Hash * Address) :=
  try_catch
    (let* gasPrice := getGasPrice C (p_shardId params) in
     let* salt := generateRandomSalt in
     let* smartAccount := generateSmartAccount C (p_shardId params) in
     let* initialBalance := getBalance C smartAccount in
     let feeCredit := 1000000 * gasPrice in
     run sleep C 5000 in
     let* res := account_deployContract C smartAccount
              {| dd_bytecode := p_bytecode params;
                 dd_abi := p_abi params;
                 dd_args := p_args params;
                 dd_feeCredit := feeCredit;
                 dd_salt := salt;
                 dd_shard := p_shardId params |} in
     let '(address, hash) := res in
     run topUp C address (feeCredit * 2) (Some "NIL") in
     run sleep C 5000 in
     ret (hash, address))
    (fun error => throw error).

(** The constructor arguments chosen per contract type. *)
Definition chooseConstructorArgs (args : DeployArgs) : list Js.Value :=
  let constructorArgs := default [] (constructorArgs args) in
  if String.eqb (contractType args) "ADVANCED_COUNTER" then
    [ Js.or_default (initialValue args) (Js.VNum 0);
      Js.or_default (maxValue args) (Js.VNum 100) ]
  else if String.eqb (contractType args) "TOKEN" then
    [ Js.or_default (tokenName args) (Js.VStr "NIL Token");
      Js.or_default (tokenSymbol args) (Js.VStr "NILT");
      Js.or_default (tokenDecimals args) (Js.VNum 18);
      Js.or_default (tokenSupply args) (Js.VStr "1000000000000000000000000") ]
  else if String.eqb (contractType args) "NFT" then
    [ Js.or_default (nftName args) (Js.VStr "NIL NFT");
      Js.or_default (nftSymbol args) (Js.VStr "NNFT");
      Js.or_default (nftBaseUri args) (Js.VStr "https://nil.foundation/nft/") ]
  else constructorArgs.

(** The shard check of [deployContract]; [Some report] is one of its
    early returns, and an exception in the block is swallowed. *)
Definition checkShard (args : DeployArgs) (client : PublicClient)
  : M W (option DeployReport) :=
  try_catch
    (let shardCount := 4 in
     if (shardId args <? 1) || (shardCount <? shardId args) then
       ret (Some (ShardNotAvailable (shardId args)))
     else
       let* gasPrice := getGasPrice C (shardId args) in
       if gasPrice =? 0 then ret (Some (ShardInactive (shardId args)))
       else ret None)
    (fun _ => ret None).

(** The block [if (args.useInternalDeployment) { try {...} catch {...} }];
    [Some report] is a [return] inside the block, [None] falls through
    to the external deployment. *)
Definition tryInternalDeployment
    (args : DeployArgs) (client : PublicClient) (deployParams : DeploymentParams)
  : M W (option DeployReport) :=
  if useInternalDeployment args then
    try_catch
      (let* res := deployContractInternal client deployParams in
       let '(hash, contractAddress) := res in
       let* isDeployed := waitForContractDeployment client contractAddress hash in
       if negb isDeployed then
         ret (Some (VerificationTimedOut (contractType args) contractAddress hash
                      (shardId args)))
       else
         ret (Some (DeployedInternal (contractType args) contractAddress hash
                      (shardId args))))
      (fun _ => ret None)
  else ret None.

(** The external deployment that ends [deployContract] (fallback or
    primary method). *)
Definition externalDeployment
    (args : DeployArgs) (client : PublicClient) (deployParams : DeploymentParams)
    (chain : Z) : M W DeployReport :=
  let* res := deployContractExternal client deployParams chain in
  let '(hash, contractAddress) := res in
  let* isDeployed := waitForContractDeployment client contractAddress hash in
  if negb isDeployed then
    ret (FundingIssues contractAddress hash (shardId args))
  else
    ret (DeployedExternal (contractType args) contractAddress hash (shardId args)).

(** The strategy part of [deployContract]: internal first when it is
    requested, then the external deployment unless the internal block
    returned. *)
Definition selectStrategy
    (args : DeployArgs) (client : PublicClient) (deployParams : DeploymentParams)
    (chain : Z) : M W DeployReport :=
  let* internal := tryInternalDeployment args client deployParams in
  match internal with
  | Some report => ret report
  | None => externalDeployment args client deployParams chain
  end.

Definition deployContract (args : DeployArgs) : M W DeployReport :=
  try_catch
    (if negb (bool_decide (is_Some (CONTRACT_TYPES !! contractType args))) then
       throw (ContractDeploymentError (contractType args) "Unknown contract type")
     else
       match CONTRACT_TYPES !! contractType args with
       | None =>
           throw (ContractDeploymentError (contractType args)
                    "Contract type details not found")
       | Some contractDetails =>
           let* client := this_getClient (shardId args) in
           let* early := checkShard args client in
           match early with
           | Some report => ret report
           | None =>
               let* gasPrice := getGasPrice C (shardId args) in
               let* chain := chainId C in
               let bytecode :=
                 if String.prefix "0x" (cd_bytecode contractDetails)
                 then cd_bytecode contractDetails
                 else "0x" +:+ cd_bytecode contractDetails in
               let feeCredit := feeCredit (contractType args) gasPrice in
               let constructorArgs := chooseConstructorArgs args in
               let deployParams :=
                 {| p_bytecode := bytecode;
                    p_abi := default [] (cd_abi contractDetails);
                    p_args := constructorArgs;
                    p_feeCredit := feeCredit;
                    p_salt := None;
                    p_shardId := shardId args |} in
               selectStrategy args client deployParams chain
           end
       end)
    (fun error =>
       throw (ContractDeploymentError (contractType args) (error_message error))).

End Provider.

(** *** Helpers and actions beside the deployment path *)

Definition convertToHex (bytecode : string) : string :=
  let cleanBytecode := Js.trim bytecode in
  if String.prefix "0x" cleanBytecode then cleanBytecode else "0x" +:+ cleanBytecode.

(** [formatExplorerLink]; [type] is ['address'] or ['tx']. *)
Definition formatExplorerLink (type : string) (value : string) : string :=
  let cleanValue := if String.prefix "0x" value then Js.slice 2 value else value in
  "https://explore.nil.foundation/" +:+ type +:+ "/" +:+ cleanValue.

Record VerifyArgs := {
  v_address : string;
  v_shardId : Z
}.

(** The answers of [verifyContract], one constructor per message template. *)
Inductive VerifyReport :=
| CodeRetrievalError (addr : string)
| NoCodeFound (addr : string) (shard : Z)
| VerificationSuccessful (addr : string) (shard : Z) (ctype : string)
                         (bytecodeSize : Z) (formattedBalance : Z) (link : string)
| VerificationError (error : JsError).

(** The loop of [verifyContract] over [Object.entries(CONTRACT_TYPES)]: the
    first entry with a non-empty byte code whose first 50 characters start
    the code, else ["Unknown"]. *)
Fixpoint detectContractType
    (entries : list (string * ContractDetails)) (codeAsString : string) : string :=
  match entries with
  | [] => "Unknown"
  | (type, details) :: rest =>
      if negb (String.eqb (cd_bytecode details) "")
         && String.prefix (String.substring 0 50 (cd_bytecode details)) codeAsString
      then type
      else detectContractType rest codeAsString
  end.

(** [typeof code === 'string' ? code : bytesToHex(code)]. *)
Definition codeAsString (code : Js.Code) : string :=
  match code with
  | Js.CodeString s => s
  | Js.CodeBytes bs => Js.bytesToHex bs
  | Js.CodeMissing => ""
  end.

Section Verification.
Context {W : Type} (C : Collab W).
(** [Object.entries(CONTRACT_TYPES)], in the table's order. *)
Variable CONTRACT_ENTRIES : list (string * ContractDetails).

Local Open Scope m_scope.

Definition contractExists (client : PublicClient) (address : string) : M W bool :=
  try_catch
    (let hexAddress := if String.prefix "0x" address then address else "0x" +:+ address in
     let* code := getCode C hexAddress in
     ret (negb (isEmptyCode code)))
    (fun _ => ret false).

Definition verifyContract (args : VerifyArgs) : M W VerifyReport :=
  try_catch
    (let contractAddress := normalizeAddress (v_address args) in
     let* client := this_getClient (v_shardId args) in
     let* read :=
       try_catch
         (let* code := getCode C contractAddress in ret (Some code))
         (fun _ => ret None) in
     match read with
     | None => ret (CodeRetrievalError contractAddress)
     | Some code =>
         if negb (Js.code_truthy code) || isEmptyCode code then
           ret (NoCodeFound contractAddress (v_shardId args))
         else
           let codeAsString := codeAsString code in
           let bytecodeSize := (Z.of_nat (String.length codeAsString) - 2) / 2 in
           let* balance :=
             try_catch (getBalance C contractAddress) (fun _ => ret 0) in
           let contractType := detectContractType CONTRACT_ENTRIES codeAsString in
           let formattedBalance := Js.bigint_div balance (10 ^ 18) in
           ret (VerificationSuccessful contractAddress (v_shardId args) contractType
                  bytecodeSize formattedBalance
                  (formatExplorerLink "address" contractAddress))
     end)
    (fun error => ret (VerificationError error)).

End Verification.

End NilContract.

(* ===================================================================== *)
(** ** The nil-contract action provider (earlier revision) *)
(* ===================================================================== *)

Module NilContractLegacy.

Definition DEFAULT_GAS_MULTIPLIER : Z := 1000000.

(** The registry code of this revision is the same text as the current
    one. *)
Definition getClient := NilContract.getClient.

Definition isEmptyCode (code : Js.Code) : bool :=
  match code with
  | Js.CodeBytes bs => Js.code_length code =? 0
  | Js.CodeString s => String.eqb s "0x" || String.eqb s ""
  | Js.CodeMissing => false
  end.

Definition convertToHex (bytecode : string) : string :=
  let cleanBytecode := Js.trim bytecode in
  if String.prefix "0x" cleanBytecode then cleanBytecode else "0x" +:+ cleanBytecode.

Record ContractConfig := {
  cc_bytecode : string;
  cc_abi : list string
}.

Record DeployArgs := {
  contractType : string;
  shardId : Z;
  constructorArgs : option (list Js.Value);
  useInternalDeployment : bool
}.

Inductive DeployReport :=
| DeployedInternal (ctype : string) (addr : Address) (account : Address)
                   (hash : Hash) (shard : Z)
| DeployedExternal (ctype : string) (addr : Address) (hash : Hash) (shard : Z).

Section Provider.
Context {W : Type} (C : Collab W).
Variable CONTRACT_TYPES : gmap string ContractConfig.

Local Open Scope m_scope.

Definition this_getClient (shard : Z) : M W PublicClient :=
  fun s =>
    match getClient shard (registry s) with
    | (Some c, r1) => (Ok c, Build_Runtime r1 (world s), [])
    | (None, r1) =>
        (Throw (ErrorObj "client is undefined"), Build_Runtime r1 (world s), [])
    end.

(** Eight random bytes read as one hexadecimal BigInt literal. *)
Definition generateRandomSalt : M W Z :=
  let* randomBytes := crypto_randomBytes C 8 in
  match Js.BigInt_of_hex ("0x" +:+ Js.toString_hex randomBytes) with
  | Some n => ret n
  | None => throw (ErrorObj "Cannot convert 0x to a BigInt")
  end.

(** [tryTopUp]: [retries] counts the passes that remain, [amount] is
    the loop variable halved in the [catch] block. *)
Fixpoint tryTopUp (address : Address) (amount : Z) (retries : nat) : M W bool :=
  match retries with
  | O => ret false
  | S remaining =>
      let* returned :=
        try_catch
          (run topUp C address amount None in
           run sleep C 5000 in
           ret true)
          (fun _ =>
             run sleep C 3000 in
             ret false) in
      if (returned : bool) then ret true
      else tryTopUp address (Js.bigint_div amount 2) remaining
  end.

Definition tryInternalDeployment
    (args : DeployArgs) (client : PublicClient) (contractConfig : ContractConfig)
    (bytecode : string) (feeCredit salt : Z) : M W (option DeployReport) :=
  if useInternalDeployment args then
    try_catch
      (let* smartAccount := generateSmartAccount C (shardId args) in
       let* topUpSuccess := tryTopUp smartAccount feeCredit 3 in
       if negb topUpSuccess then
         throw (ErrorObj "Failed to fund smart account after multiple attempts")
       else
         let* res := account_deployContract C smartAccount
                       {| dd_bytecode := bytecode;
                          dd_abi := cc_abi contractConfig;
                          dd_args := default [] (constructorArgs args);
                          dd_feeCredit := feeCredit;
                          dd_salt := salt;
                          dd_shard := shardId args |} in
         let '(address, hash) := res in
         run sleep C 5000 in
         run waitTillCompleted C hash in
         let* code := getCode C address in
         if isEmptyCode code then
           throw (ErrorObj "Contract deployment failed - no code at address")
         else
           ret (Some (DeployedInternal (contractType args) address smartAccount
                        hash (shardId args))))
      (fun _ => ret None)
  else ret None.

Definition externalDeployment
    (args : DeployArgs) (client : PublicClient) (contractConfig : ContractConfig)
    (bytecode : string) (feeCredit salt chain : Z) : M W DeployReport :=
  let* contractAddress :=
    externalDeploymentTransaction C
      {| dd_bytecode := bytecode;
         dd_abi := cc_abi contractConfig;
         dd_args := default [] (constructorArgs args);
         dd_feeCredit := feeCredit;
         dd_salt := salt;
         dd_shard := shardId args |} chain in
  let* topUpSuccess := tryTopUp contractAddress feeCredit 3 in
  if negb topUpSuccess then
    throw (ErrorObj "Failed to fund contract address after multiple attempts")
  else
    let* hash := deploymentTransaction_send C contractAddress in
    run sleep C 5000 in
    run waitTillCompleted C hash in
    let* code := getCode C contractAddress in
    if isEmptyCode code then
      throw (ErrorObj "Contract deployment failed - no code at address")
    else
      ret (DeployedExternal (contractType args) contractAddress hash (shardId args)).

(** The strategy part of [deployContract]. *)
Definition selectStrategy
    (args : DeployArgs) (client : PublicClient) (contractConfig : ContractConfig)
    (bytecode : string) (feeCredit salt chain : Z) : M W DeployReport :=
  let* internal :=
    tryInternalDeployment args client contractConfig bytecode feeCredit salt in
  match internal with
  | Some report => ret report
  | None =>
      externalDeployment args client contractConfig bytecode feeCredit salt chain
  end.

Definition deployContract (args : DeployArgs) : M W DeployReport :=
  try_catch
    (let* client := this_getClient (shardId args) in
     let* gasPrice := getGasPrice C (shardId args) in
     let* chain := chainId C in
     let* salt := generateRandomSalt in
     match CONTRACT_TYPES !! contractType args with
     | None => throw (ErrorObj "Cannot read properties of undefined")
     | Some contractConfig =>
         let bytecode := convertToHex (cc_bytecode contractConfig) in
         let feeCredit := DEFAULT_GAS_MULTIPLIER * gasPrice in
         selectStrategy args client contractConfig bytecode feeCredit salt chain
     end)
    (fun error =>
       throw (ContractDeploymentError (contractType args) (error_message error))).

End Provider.

End NilContractLegacy.

(* ===================================================================== *)
(** ** The supply-chain action provider *)
(* ===================================================================== *)

Module SupplyChain.

Definition isEmptyCode := NilContract.isEmptyCode.
Definition normalizeAddress := NilContract.normalizeAddress.

Record ManufacturerArgs := {
  publicKey : option string;
  retailerAddress : option string;
  shardId : option Z;
  salt : option Z;
  useInternalDeployment : option bool
}.

Inductive ManufacturerReport :=
| ManufacturerDeployed (addr : Address) (hash : Hash) (retailer : string)
                       (pubkeyHex : string) (shard : Z)
| ManufacturerVerificationTimedOut (addr : Address) (hash : Hash) (retailer : string)
                                   (pubkeyHex : string) (shard : Z)
| ManufacturerUnconfirmed (addr : Address) (hash : Hash) (shard : Z).

Section Provider.
Context {W : Type} (C : Collab W).
Variable MANUFACTURER_BYTECODE : string.
Variable MANUFACTURER_ABI : list string.

Local Open Scope m_scope.

Definition this_getClient (shard : Z) : M W PublicClient :=
  fun s =>
    match NilContract.getClient shard (registry s) with
    | (Some c, r1) => (Ok c, Build_Runtime r1 (world s), [])
    | (None, r1) =>
        (Throw (ErrorObj "client is undefined"), Build_Runtime r1 (world s), [])
    end.

Definition generateRandomSalt : M W Z :=
  let* d := Math_random C in
  let randomValue := Js.floor_mul d 10000 in
  ret randomValue.

(** The module's [generateKeyPair]: the last 32 bytes of each encoding. *)
Definition generateKeyPair : M W (list byte * list byte) :=
  let* kp := crypto_generateKeyPairSync C in
  ret (Js.slice_last 32 (fst kp), Js.slice_last 32 (snd kp)).

(** The [while (verificationAttempts < 10 && !isVerified)] loop;
    [remaining] counts the passes that are left. *)
Fixpoint verifyCode (contractAddress : Address) (remaining : nat) : M W bool :=
  match remaining with
  | O => ret false
  | S remaining' =>
      let* isVerified :=
        try_catch
          (let* code := getCode C contractAddress in
           ret (negb (isEmptyCode code)))
          (fun _ => ret false) in
      if (isVerified : bool) then ret true
      else
        run sleep C 2000 in
        verifyCode contractAddress remaining'
  end.

Definition deployManufacturerContract (args : ManufacturerArgs)
  : M W ManufacturerReport :=
  try_catch
    (let shard := default 1 (shardId args) in
     match retailerAddress args with
     | None | Some EmptyString =>
         throw (ErrorObj
           "Retailer address is required to deploy the Manufacturer contract. Please deploy a Retailer contract first.")
     | Some retailerAddress =>
         let* client := this_getClient shard in
         let* pubkey :=
           match publicKey args with
           | None | Some EmptyString =>
               let* keyPair := generateKeyPair in
               ret (fst keyPair)
           | Some publicKey =>
               match Js.hexToBytes
                       (if String.prefix "0x" publicKey then publicKey
                        else "0x" +:+ publicKey) with
               | Some bs => ret bs
               | None => throw (ErrorObj "invalid hex")
               end
           end in
         let retailerAddressNormalized := normalizeAddress retailerAddress in
         let bytecode := MANUFACTURER_BYTECODE in
         let* saltValue :=
           match salt args with
           | Some n => if n =? 0 then generateRandomSalt else ret n
           | None => generateRandomSalt
           end in
         let* smartAccount := generateSmartAccount C shard in
         let* gasPrice := getGasPrice C shard in
         let feeCredit := 1000000 * gasPrice in
         let* res := account_deployContract C smartAccount
                       {| dd_bytecode := bytecode;
                          dd_abi := MANUFACTURER_ABI;
                          dd_args := [Js.VBytes pubkey; Js.VStr retailerAddressNormalized];
                          dd_feeCredit := feeCredit;
                          dd_salt := saltValue;
                          dd_shard := shard |} in
         let '(contractAddress, hash) := res in
         try_catch
           (run waitTillCompleted C hash in
            let* isVerified := verifyCode contractAddress 10 in
            let pubkeyHex := Js.bytesToHex pubkey in
            if (isVerified : bool) then
              ret (ManufacturerDeployed contractAddress hash
                     retailerAddressNormalized pubkeyHex shard)
            else
              ret (ManufacturerVerificationTimedOut contractAddress hash
                     retailerAddressNormalized pubkeyHex shard))
           (fun _ => ret (ManufacturerUnconfirmed contractAddress hash shard))
     end)
    (fun error =>
       throw (ContractDeploymentError "Manufacturer" (error_message error))).

End Provider.

(** *** The Retailer deployment action *)

Definition DEFAULT_SHARD_ID : Z := 1.

Record RetailerArgs := {
  r_shardId : Z;
  r_salt : option Z;
  r_useInternalDeployment : bool
}.

Inductive RetailerReport :=
| RetailerDeployed (addr : Address) (hash : Hash) (shard : Z)
| RetailerVerificationTimedOut (addr : Address) (hash : Hash) (shard : Z)
| RetailerUnconfirmed (addr : Address) (hash : Hash) (shard : Z).

Section RetailerAction.
Context {W : Type} (C : Collab W).
Variable RETAILER_BYTECODE : string.
Variable RETAILER_ABI : list string.

Local Open Scope m_scope.

Definition deployRetailerContract (args : RetailerArgs) : M W RetailerReport :=
  try_catch
    (let shardId :=
       if r_shardId args =? 0 then DEFAULT_SHARD_ID else r_shardId args in
     let* client := this_getClient shardId in
     let* gasPrice := getGasPrice C shardId in
     let* smartAccount := generateSmartAccount C shardId in
     let* salt :=
       match r_salt args with
       | Some n => if n =? 0 then generateRandomSalt C else ret n
       | None => generateRandomSalt C
       end in
     let feeCredit := 1000000 * gasPrice in
     let bytecode :=
       if String.prefix "0x" RETAILER_BYTECODE then RETAILER_BYTECODE
       else "0x" +:+ RETAILER_BYTECODE in
     let* res := account_deployContract C smartAccount
                   {| dd_bytecode := bytecode;
                      dd_abi := RETAILER_ABI;
                      dd_args := [];
                      dd_feeCredit := feeCredit;
                      dd_salt := salt;
                      dd_shard := shardId |} in
     let '(contractAddress, hash) := res in
     try_catch
       (run waitTillCompleted C hash in
        let* isVerified := verifyCode C contractAddress 10 in
        if (isVerified : bool) then
          ret (RetailerDeployed contractAddress hash shardId)
        else
          ret (RetailerVerificationTimedOut contractAddress hash shardId))
       (fun _ => ret (RetailerUnconfirmed contractAddress hash shardId)))
    (fun error =>
       throw (ContractDeploymentError "Retailer" (error_message error))).

End RetailerAction.

End SupplyChain.

(* ===================================================================== *)
(** ** The deploy-supply-chain script *)
(* ===================================================================== *)

Module DeployScript.



Section Script.
Context {W : Type} (C : Collab W).

Local Open Scope m_scope.

Definition generateKeyPair : M W (list byte * list byte) :=
  let* kp := crypto_generateKeyPairSync C in
  ret (Js.slice_last 32 (fst kp), Js.slice_last 32 (snd kp)).




End Script.

End DeployScript.

(* ===================================================================== *)
(** ** Observations on traces *)
(* ===================================================================== *)

(** The amounts of the faucet requests of a trace, in order. *)
Fixpoint faucet_amounts (tr : list Event) : list Z :=
  match tr with
  | [] => []
  | ETopUp _ amount _ _ :: rest => amount :: faucet_amounts rest
  | _ :: rest => faucet_amounts rest
  end.

(** The answers to the faucet requests of a trace, in order: [true] when
    the call resolved, [false] when it threw. *)
Fixpoint faucet_outcomes (tr : list Event) : list bool :=
  match tr with
  | [] => []
  | ETopUp _ _ _ ok :: rest => ok :: faucet_outcomes rest
  | _ :: rest => faucet_outcomes rest
  end.

(** The waits of a trace in milliseconds, in order. *)
Fixpoint sleeps (tr : list Event) : list Z :=
  match tr with
  | [] => []
  | ESleep ms :: rest => ms :: sleeps rest
  | _ :: rest => sleeps rest
  end.

Definition total_sleep (tr : list Event) : Z := foldr Z.add 0 (sleeps tr).

(** Number of code polls. *)
Fixpoint code_polls (tr : list Event) : nat :=
  match tr with
  | [] => O
  | EGetCode _ _ :: rest => S (code_polls rest)
  | _ :: rest => code_polls rest
  end.

(** Number of times the external strategy was started: it begins by
    building the external deployment transaction. *)
Fixpoint external_attempts (tr : list Event) : nat :=
  match tr with
  | [] => O
  | EExternalTx _ _ _ :: rest => S (external_attempts rest)
  | _ :: rest => external_attempts rest
  end.

(** Walking a trace backwards from its end: a balance read of [a] showing at
    least [required] is met before any faucet request. *)
Fixpoint verified_backwards (a : Address) (required : Z) (rtr : list Event) : bool :=
  match rtr with
  | [] => false
  | EGetBalance a' (Some b) :: rest =>
      (String.eqb a a' && (required <=? b)) || verified_backwards a required rest
  | ETopUp _ _ _ _ :: _ => false
  | _ :: rest => verified_backwards a required rest
  end.

(** A balance read after the most recent faucet request showed
    [balance a >= required]. *)
Definition balance_verified (a : Address) (required : Z) (tr : list Event) : bool :=
  verified_backwards a required (rev tr).

(** A balance read of [a] showing at least [required]. *)
Definition sufficient_read (a : Address) (required : Z) (e : Event) : Prop :=
  exists b, e = EGetBalance a (Some b) /\ required <= b.

(** The wait the poller takes after its [attempt]-th unsuccessful poll, as
    documented: five seconds plus one per attempt, at most thirty. *)
Definition documented_backoff (attempt : Z) : Z :=
  Z.min (5000 + 1000 * attempt) 30000.



(** The amounts the earlier revision's [tryTopUp] goes through. *)
Fixpoint halvings (amount : Z) (n : nat) : list Z :=
  match n with
  | O => []
  | S n' => amount :: halvings (Js.bigint_div amount 2) n'
  end.

(** Number of balance reads. *)
Fixpoint balance_reads (tr : list Event) : nat :=
  match tr with
  | [] => O
  | EGetBalance _ _ :: rest => S (balance_reads rest)
  | _ :: rest => balance_reads rest
  end.

(** The registry after a sequence of [getClient] calls, the only code of
    the providers that reads or writes [this.clients]. *)
Definition getClients (shards : list Z) (r : Registry) : Registry :=
  foldl (fun acc shard => snd (NilContract.getClient shard acc)) r shards.

(** Every entry of [r] is still in [r'], with the same client. *)
Definition entries_kept (r r' : Registry) : Prop :=
  forall k c, clients r !! k = Some c -> clients r' !! k = Some c.

(** A computation never replaces or removes a registry entry. *)
Definition keeps_entries {W A} (m : M W A) : Prop :=
  forall s r s' t, m s = (r, s', t) -> entries_kept (registry s) (registry s').

(** The all-zero address: [bytesToHex] of twenty zero bytes. *)
Definition zero_address : string := "0x0000000000000000000000000000000000000000".

(** Big-endian value of a byte string. *)
Definition be_value (bs : list byte) : Z :=
  foldl (fun acc b => 256 * acc + Z.of_N (Byte.to_N b)) 0 bs.




(** The empty registry of a freshly constructed provider. *)
Definition new_registry : Registry := {| clients := ∅; allocated := 0 |}.

(** *** Shapes of the loops' traces *)

(** The events of a pass of the funding loop that does not end the loop:
    the faucet call throws, the balance read throws, or the balance read
    shows too little and the loop waits two seconds. *)
Inductive failed_pass (a : Address) (required amount : Z) : list Event -> Prop :=
| fp_faucet :
    failed_pass a required amount [ETopUp a amount (Some "NIL") false]
| fp_read :
    failed_pass a required amount
      [ETopUp a amount (Some "NIL") true; EGetBalance a None]
| fp_short b :
    b < required ->
    failed_pass a required amount
      [ETopUp a amount (Some "NIL") true; EGetBalance a (Some b); ESleep 2000].

(** The traces of the funding loop over a schedule of amounts, with the
    loop's result. *)
Inductive funding_trace (a : Address) (required : Z)
  : list Z -> bool -> list Event -> Prop :=
| ft_exhausted : funding_trace a required [] false []
| ft_funded amount rest b :
    required <= b ->
    funding_trace a required (amount :: rest) true
      [ETopUp a amount (Some "NIL") true; EGetBalance a (Some b)]
| ft_next amount rest res t0 t :
    failed_pass a required amount t0 ->
    funding_trace a required rest res t ->
    funding_trace a required (amount :: rest) res (t0 ++ t).

(** The wait that follows an unsuccessful poll. *)
Definition poll_wait (attempt : Z) : list Z :=
  if attempt <? 30 then [Z.min (5 + attempt) 30 * 1000] else [].

(** The waits of a whole polling schedule. *)
Definition poll_waits (attempts : list Z) : list Z := flat_map poll_wait attempts.

(** The traces of the code polling loop with the loop's outcome. *)
Inductive poll_trace (a : Address) : list Z -> Exc bool -> list Event -> Prop :=
| pt_exhausted : poll_trace a [] (Ok false) []
| pt_found attempt rest code :
    NilContract.isEmptyCode code = false ->
    poll_trace a (attempt :: rest) (Ok true) [EGetCode a (Some code)]
| pt_throw attempt rest e :
    poll_trace a (attempt :: rest) (Throw e) [EGetCode a None]
| pt_wait attempt rest code r t :
    NilContract.isEmptyCode code = true ->
    poll_trace a rest r t ->
    poll_trace a (attempt :: rest) r
      (EGetCode a (Some code) :: map ESleep (poll_wait attempt) ++ t).

(* ===================================================================== *)
(** ** Simulated collaborators for examples *)
(* ===================================================================== *)

Module Sim.

(** A small ledger: one balance shared by all addresses, a faucet that
    can be down or can acknowledge without crediting, and fixed answers
    for receipts, code and submissions. *)
Record World := {
  w_balance : Z;
  w_faucet : bool;
  w_credit : bool;
  w_code : Js.Code;
  w_status : ReceiptStatus;
  w_submit : bool;
  w_random : Js.UnitDouble;
  w_bytes : list byte
}.

Definition credit (amount : Z) (w : World) : World :=
  {| w_balance := w_balance w + amount;
     w_faucet := w_faucet w;
     w_credit := w_credit w;
     w_code := w_code w;
     w_status := w_status w;
     w_submit := w_submit w;
     w_random := w_random w;
     w_bytes := w_bytes w |}.

Definition artifacts : Artifacts :=
  {| retailerBytecode := "0x6001";
     manufacturerBytecode := "0x6002";
     retailerAbi := ["orderProduct"];
     manufacturerAbi := ["createProduct"] |}.

Definition collab : Collab World :=
  {| c_getBalance := fun _ w => (Ok (w_balance w), w);
     c_topUp := fun _ amount _ w =>
       if w_faucet w
       then (Ok tt, if w_credit w then credit amount w else w)
       else (Throw (ErrorObj "faucet unavailable"), w);
     c_sleep := fun _ w => w;
     c_getCode := fun _ w => (Ok (w_code w), w);
     c_waitTillCompleted := fun _ w => (Ok tt, w);
     c_getReceipt := fun _ w => (Ok (Some {| receipt_status := w_status w |}), w);
     c_getGasPrice := fun _ w => (Ok 10, w);
     c_chainId := fun w => (Ok 1, w);
     c_generateSmartAccount := fun _ w => (Ok "0xacc", w);
     c_accountDeploy := fun _ _ w =>
       if w_submit w then (Ok ("0xc0de", "0xhash"), w)
       else (Throw (ErrorObj "submission rejected"), w);
     c_externalTx := fun _ _ w => (Ok "0xe0de", w);
     c_externalSend := fun _ w => (Ok "0xe0hash", w);
     c_random := fun w => (w_random w, w);
     c_randomBytes := fun n w => (take n (w_bytes w), w);
     c_generateKeyPair := fun w => ((w_bytes w, w_bytes w), w);
     c_compile := fun w => (Ok (Some artifacts), w);
     c_writeFiles := fun w => (Ok tt, w) |}.

(** The same collaborators behind a faucet that rejects every request
    above [limit]. *)
Definition capped (limit : Z) : Collab World :=
  {| c_getBalance := c_getBalance collab;
     c_topUp := fun a amount token w =>
       if amount <=? limit then c_topUp collab a amount token w
       else (Throw (ErrorObj "amount above the faucet limit"), w);
     c_sleep := c_sleep collab;
     c_getCode := c_getCode collab;
     c_waitTillCompleted := c_waitTillCompleted collab;
     c_getReceipt := c_getReceipt collab;
     c_getGasPrice := c_getGasPrice collab;
     c_chainId := c_chainId collab;
     c_generateSmartAccount := c_generateSmartAccount collab;
     c_accountDeploy := c_accountDeploy collab;
     c_externalTx := c_externalTx collab;
     c_externalSend := c_externalSend collab;
     c_random := c_random collab;
     c_randomBytes := c_randomBytes collab;
     c_generateKeyPair := c_generateKeyPair collab;
     c_compile := c_compile collab;
     c_writeFiles := c_writeFiles collab |}.

Definition half : Js.UnitDouble := {| Js.ud_mant := 2 ^ 52; Js.ud_exp := 0 |}.

(** A healthy ledger with an empty balance. *)
Definition healthy : World :=
  {| w_balance := 0;
     w_faucet := true;
     w_credit := true;
     w_code := Js.CodeString "0x6001600155";
     w_status := StatusSuccess;
     w_submit := true;
     w_random := half;
     w_bytes := repeat Byte.xff 8 |}.

(** The faucet acknowledges requests but nothing is credited. *)
Definition hollow_faucet : World :=
  {| w_balance := 0;
     w_faucet := true;
     w_credit := false;
     w_code := Js.CodeString "0x6001600155";
     w_status := StatusSuccess;
     w_submit := true;
     w_random := half;
     w_bytes := repeat Byte.xff 8 |}.

(** The faucet is down. *)
Definition faucet_down : World :=
  {| w_balance := 0;
     w_faucet := false;
     w_credit := false;
     w_code := Js.CodeString "0x";
     w_status := StatusSuccess;
     w_submit := true;
     w_random := half;
     w_bytes := repeat Byte.xff 8 |}.

(** Deployments confirm with status InsufficientFunds. *)
Definition underfunded : World :=
  {| w_balance := 0;
     w_faucet := true;
     w_credit := true;
     w_code := Js.CodeString "0x";
     w_status := StatusInsufficientFunds;
     w_submit := true;
     w_random := half;
     w_bytes := repeat Byte.xff 8 |}.

(** Smart accounts refuse to submit. *)
Definition rejecting : World :=
  {| w_balance := 0;
     w_faucet := true;
     w_credit := true;
     w_code := Js.CodeString "0x6001600155";
     w_status := StatusSuccess;
     w_submit := false;
     w_random := half;
     w_bytes := repeat Byte.xff 8 |}.

(** Code never becomes visible. *)
Definition no_code : World :=
  {| w_balance := 0;
     w_faucet := true;
     w_credit := true;
     w_code := Js.CodeString "0x";
     w_status := StatusSuccess;
     w_submit := true;
     w_random := half;
     w_bytes := repeat Byte.xff 8 |}.

Definition start (w : World) : Runtime World :=
  {| registry := {| clients := ∅; allocated := 0 |}; world := w |}.

Definition client1 : PublicClient := {| client_ref := 0; client_shardId := 1 |}.

Definition counter_types : gmap string NilContract.ContractDetails :=
  {[ "COUNTER" := {| NilContract.cd_bytecode := "0x6080"; NilContract.cd_abi := Some ["increment"] |} ]}.

Definition counter_args (internal : bool) : NilContract.DeployArgs :=
  {| NilContract.contractType := "COUNTER";
     NilContract.shardId := 1;
     NilContract.constructorArgs := None;
     NilContract.salt := None;
     NilContract.useInternalDeployment := internal;
     NilContract.initialValue := None;
     NilContract.maxValue := None;
     NilContract.tokenName := None;
     NilContract.tokenSymbol := None;
     NilContract.tokenDecimals := None;
     NilContract.tokenSupply := None;
     NilContract.nftName := None;
     NilContract.nftSymbol := None;
     NilContract.nftBaseUri := None |}.

Definition counter_params : NilContract.DeploymentParams :=
  {| NilContract.p_bytecode := "0x6080";
     NilContract.p_abi := ["increment"];
     NilContract.p_args := [];
     NilContract.p_feeCredit := 120;
     NilContract.p_salt := None;
     NilContract.p_shardId := 1 |}.

Definition legacy_types : gmap string NilContractLegacy.ContractConfig :=
  {[ "COUNTER" := {| NilContractLegacy.cc_bytecode := "0x6080";
                     NilContractLegacy.cc_abi := ["increment"] |} ]}.


Definition legacy_args (internal : bool) : NilContractLegacy.DeployArgs :=
  {| NilContractLegacy.contractType := "COUNTER";
     NilContractLegacy.shardId := 1;
     NilContractLegacy.constructorArgs := None;
     NilContractLegacy.useInternalDeployment := internal |}.

End Sim.

Definition outcome {W A} (x : Exc A * Runtime W * list Event) : Exc A := fst (fst x).
Definition trace {W A} (x : Exc A * Runtime W * list Event) : list Event := snd x.

(* ===================================================================== *)
(** ** Reasoning about computations *)
(* ===================================================================== *)

Section MonadLemmas.
Context {W : Type}.

Lemma bind_inv {A B} (m : M W A) (k : A -> M W B) s r s' t :
  bind m k s = (r, s', t) ->
  (exists a s1 t1 t2,
      m s = (Ok a, s1, t1) /\ k a s1 = (r, s', t2) /\ t = t1 ++ t2)
  \/ (exists e, m s = (Throw e, s', t) /\ r = Throw e).
Proof.
  unfold bind. destruct (m s) as [[[a|e] s1] t1].
  - destruct (k a s1) as [[r2 s2] t2] eqn:Hk. intros [= <- <- <-].
    left. exists a, s1, t1, t2. auto.
  - intros [= <- <- <-]. right. exists e. auto.
Qed.

Lemma try_catch_inv {A} (m : M W A) (h : JsError -> M W A) s r s' t :
  try_catch m h s = (r, s', t) ->
  (exists a, m s = (Ok a, s', t) /\ r = Ok a)
  \/ (exists e s1 t1 t2,
         m s = (Throw e, s1, t1) /\ h e s1 = (r, s', t2) /\ t = t1 ++ t2).
Proof.
  unfold try_catch. destruct (m s) as [[[a|e] s1] t1].
  - intros [= <- <- <-]. left. exists a. auto.
  - destruct (h e s1) as [[r2 s2] t2] eqn:Hh. intros [= <- <- <-].
    right. exists e, s1, t1, t2. auto.
Qed.

Lemma ret_inv {A} (a : A) (s : Runtime W) r s' t :
  ret a s = (r, s', t) -> r = Ok a /\ s' = s /\ t = [].
Proof. unfold ret. intros [= <- <- <-]. auto. Qed.

Lemma throw_inv {A} (e : JsError) (s : Runtime W) (r : Exc A) s' t :
  throw e s = (r, s', t) -> r = Throw e /\ s' = s /\ t = [].
Proof. unfold throw. intros [= <- <- <-]. auto. Qed.

Lemma call_inv {A} (f : W -> Exc A * W) ev (s : Runtime W) r s' t :
  call f ev s = (r, s', t) ->
  exists w', f (world s) = (r, w') /\ s' = Build_Runtime (registry s) w' /\ t = [ev r].
Proof.
  unfold call. destruct (f (world s)) as [r0 w'] eqn:Hf.
  intros [= <- <- <-]. exists w'. auto.
Qed.

Lemma sleep_inv (C : Collab W) ms (s : Runtime W) r s' t :
  sleep C ms s = (r, s', t) ->
  r = Ok tt /\ s' = Build_Runtime (registry s) (c_sleep C ms (world s)) /\ t = [ESleep ms].
Proof. unfold sleep. intros [= <- <- <-]. auto. Qed.

Lemma Math_random_inv (C : Collab W) (s : Runtime W) r s' t :
  Math_random C s = (r, s', t) ->
  exists d w',
    c_random C (world s) = (d, w') /\ r = Ok d /\
    s' = Build_Runtime (registry s) w' /\ t = [ERandom d].
Proof.
  unfold Math_random. destruct (c_random C (world s)) as [d w'].
  intros [= <- <- <-]. exists d, w'. auto.
Qed.

Lemma crypto_randomBytes_inv (C : Collab W) n (s : Runtime W) r s' t :
  crypto_randomBytes C n s = (r, s', t) ->
  exists bs w',
    c_randomBytes C n (world s) = (bs, w') /\ r = Ok bs /\
    s' = Build_Runtime (registry s) w' /\ t = [ERandomBytes bs].
Proof.
  unfold crypto_randomBytes. destruct (c_randomBytes C n (world s)) as [bs w'].
  intros [= <- <- <-]. exists bs, w'. auto.
Qed.

Lemma crypto_generateKeyPairSync_inv (C : Collab W) (s : Runtime W) r s' t :
  crypto_generateKeyPairSync C s = (r, s', t) ->
  exists kp w',
    c_generateKeyPair C (world s) = (kp, w') /\ r = Ok kp /\
    s' = Build_Runtime (registry s) w' /\ t = [EGenerateKeyPair (fst kp)].
Proof.
  unfold crypto_generateKeyPairSync.
  destruct (c_generateKeyPair C (world s)) as [kp w'].
  intros [= <- <- <-]. exists kp, w'. auto.
Qed.

Lemma new_PublicClient_inv shard (s : Runtime W) r s' t :
  new_PublicClient shard s = (r, s', t) ->
  r = Ok {| client_ref := allocated (registry s); client_shardId := shard |} /\
  s' = Build_Runtime
         {| clients := clients (registry s); allocated := S (allocated (registry s)) |}
         (world s) /\
  t = [].
Proof. unfold new_PublicClient. intros [= <- <- <-]. auto. Qed.

(** The three providers share the registry code. *)
Lemma this_getClient_inv shard (s : Runtime W) r s' t :
  NilContract.this_getClient shard s = (r, s', t) ->
  s' = Build_Runtime (snd (NilContract.getClient shard (registry s))) (world s) /\
  t = [] /\
  r = match fst (NilContract.getClient shard (registry s)) with
      | Some c => Ok c
      | None => Throw (ErrorObj "client is undefined")
      end.
Proof.
  unfold NilContract.this_getClient.
  destruct (NilContract.getClient shard (registry s)) as [[c|] r1];
    intros [= <- <- <-]; auto.
Qed.

End MonadLemmas.

(** Take a hypothesis about the result of a computation apart, following
    the structure of the computation. *)
Ltac m_inv H :=
  lazymatch type of H with
  | bind _ _ _ = _ =>
      let H1 := fresh "Hm" in let H2 := fresh "Hk" in
      apply bind_inv in H;
      destruct H as [(? & ? & ? & ? & H1 & H2 & ?) | (? & H1 & ?)];
      simplify_eq
  | try_catch _ _ _ = _ =>
      let H1 := fresh "Hm" in let H2 := fresh "Hh" in
      apply try_catch_inv in H;
      destruct H as [(? & H1 & ?) | (? & ? & ? & ? & H1 & H2 & ?)];
      simplify_eq
  | ret _ _ = _ => apply ret_inv in H; destruct H as (? & ? & ?); simplify_eq
  | throw _ _ = _ => apply throw_inv in H; destruct H as (? & ? & ?); simplify_eq
  | sleep _ _ _ = _ => apply sleep_inv in H; destruct H as (? & ? & ?); simplify_eq
  | call _ _ _ = _ =>
      let Hc := fresh "Hc" in
      apply call_inv in H; destruct H as (? & Hc & ? & ?); simplify_eq
  | Math_random _ _ = _ =>
      let Hc := fresh "Hc" in
      apply Math_random_inv in H; destruct H as (? & ? & Hc & ? & ? & ?);
      simplify_eq
  | crypto_randomBytes _ _ _ = _ =>
      let Hc := fresh "Hc" in
      apply crypto_randomBytes_inv in H; destruct H as (? & ? & Hc & ? & ? & ?);
      simplify_eq
  | crypto_generateKeyPairSync _ _ = _ =>
      let Hc := fresh "Hc" in
      apply crypto_generateKeyPairSync_inv in H;
      destruct H as (? & ? & Hc & ? & ? & ?); simplify_eq
  | new_PublicClient _ _ = _ =>
      apply new_PublicClient_inv in H; destruct H as (? & ? & ?); simplify_eq
  | NilContract.this_getClient _ _ = _ =>
      apply this_getClient_inv in H; destruct H as (? & ? & ?); simplify_eq
  | NilContractLegacy.this_getClient _ _ = _ =>
      apply this_getClient_inv in H; destruct H as (? & ? & ?); simplify_eq
  | SupplyChain.this_getClient _ _ = _ =>
      apply this_getClient_inv in H; destruct H as (? & ? & ?); simplify_eq
  end.

Ltac m_auto :=
  repeat (simplify_eq;
          match goal with
          | H : bind _ _ _ = _ |- _ => m_inv H
          | H : try_catch _ _ _ = _ |- _ => m_inv H
          | H : ret _ _ = _ |- _ => m_inv H
          | H : throw _ _ = _ |- _ => m_inv H
          | H : sleep _ _ _ = _ |- _ => m_inv H
          | H : call _ _ _ = _ |- _ => m_inv H
          | H : Math_random _ _ = _ |- _ => m_inv H
          | H : crypto_randomBytes _ _ _ = _ |- _ => m_inv H
          | H : crypto_generateKeyPairSync _ _ = _ |- _ => m_inv H
          | H : new_PublicClient _ _ = _ |- _ => m_inv H
          | H : NilContract.this_getClient _ _ = _ |- _ => m_inv H
          | H : NilContractLegacy.this_getClient _ _ = _ |- _ => m_inv H
          | H : SupplyChain.this_getClient _ _ = _ |- _ => m_inv H
          | H : getBalance _ _ _ = _ |- _ => unfold getBalance in H
          | H : topUp _ _ _ _ _ = _ |- _ => unfold topUp in H
          | H : getCode _ _ _ = _ |- _ => unfold getCode in H
          | H : waitTillCompleted _ _ _ = _ |- _ => unfold waitTillCompleted in H
          | H : getTransactionReceiptByHash _ _ _ = _ |- _ =>
              unfold getTransactionReceiptByHash in H
          | H : getGasPrice _ _ _ = _ |- _ => unfold getGasPrice in H
          | H : chainId _ _ = _ |- _ => unfold chainId in H
          | H : generateSmartAccount _ _ _ = _ |- _ => unfold generateSmartAccount in H
          | H : account_deployContract _ _ _ _ = _ |- _ =>
              unfold account_deployContract in H
          | H : externalDeploymentTransaction _ _ _ _ = _ |- _ =>
              unfold externalDeploymentTransaction in H
          | H : deploymentTransaction_send _ _ _ = _ |- _ =>
              unfold deploymentTransaction_send in H
          | H : compileContracts _ _ = _ |- _ => unfold compileContracts in H
          | H : writeDeploymentFiles _ _ = _ |- _ => unfold writeDeploymentFiles in H
          | H : (if ?b then _ else _) _ = (_, _, _) |- _ => destruct b eqn:?
          | H : (match ?x with _ => _ end) _ = (_, _, _) |- _ => destruct x eqn:?
          end).

Section TraceLemmas.

Lemma faucet_amounts_app t1 t2 :
  faucet_amounts (t1 ++ t2) = faucet_amounts t1 ++ faucet_amounts t2.
Proof.
  induction t1 as [|e t1 IH]; [reflexivity|].
  destruct e; simpl; rewrite IH; reflexivity.
Qed.

Lemma faucet_outcomes_app t1 t2 :
  faucet_outcomes (t1 ++ t2) = faucet_outcomes t1 ++ faucet_outcomes t2.
Proof.
  induction t1 as [|e t1 IH]; [reflexivity|].
  destruct e; simpl; rewrite IH; reflexivity.
Qed.

Lemma sleeps_app t1 t2 : sleeps (t1 ++ t2) = sleeps t1 ++ sleeps t2.
Proof.
  induction t1 as [|e t1 IH]; [reflexivity|].
  destruct e; simpl; rewrite IH; reflexivity.
Qed.

Lemma total_sleep_app t1 t2 :
  total_sleep (t1 ++ t2) = total_sleep t1 + total_sleep t2.
Proof.
  unfold total_sleep. rewrite sleeps_app.
  induction (sleeps t1) as [|x l IH]; simpl; lia.
Qed.

Lemma code_polls_app t1 t2 :
  code_polls (t1 ++ t2) = (code_polls t1 + code_polls t2)%nat.
Proof.
  induction t1 as [|e t1 IH]; [reflexivity|].
  destruct e; simpl; rewrite IH; reflexivity.
Qed.

Lemma external_attempts_app t1 t2 :
  external_attempts (t1 ++ t2) = (external_attempts t1 + external_attempts t2)%nat.
Proof.
  induction t1 as [|e t1 IH]; [reflexivity|].
  destruct e; simpl; rewrite IH; reflexivity.
Qed.

(** A trace ending in a sufficient balance read is verified. *)
Lemma balance_verified_last a required pre b :
  required <= b ->
  balance_verified a required (pre ++ [EGetBalance a (Some b)]) = true.
Proof.
  intros Hb. unfold balance_verified. rewrite rev_app_distr. simpl.
  rewrite String.eqb_refl. apply Z.leb_le in Hb. rewrite Hb. reflexivity.
Qed.

End TraceLemmas.

(* ===================================================================== *)
(** ** The funding guard *)
(* ===================================================================== *)

Section Funding.
Context {W : Type} (C : Collab W).

Lemma topUpAttempts_trace a required attempts s r s' t :
  NilContract.topUpAttempts C a required attempts s = (r, s', t) ->
  exists res, r = Ok res /\ funding_trace a required attempts res t.
Proof.
  revert s r s' t. induction attempts as [|amount rest IH]; intros s r s' t H.
  - simpl in H. m_inv H. exists false. split; [reflexivity | constructor].
  - simpl in H. unfold bind at 1 in H.
    unfold try_catch, bind, topUp, getBalance, call, sleep, ret in H.
    simpl in H.
    destruct (c_topUp C a amount (Some "NIL") (world s)) as [[[]|e] w1] eqn:Ht; simpl in H.
    + destruct (c_getBalance C a w1) as [[b|e] w2] eqn:Hb; simpl in H.
      * destruct (required <=? b) eqn:Hle; simpl in H.
        -- simplify_eq. exists true. split; [reflexivity|].
           apply ft_funded. lia.
        -- match type of H with
           | context [NilContract.topUpAttempts C a required rest ?s0] =>
               destruct (NilContract.topUpAttempts C a required rest s0)
                 as [[r2 s2] t2] eqn:Hrest
           end.
           simplify_eq. apply IH in Hrest as (res & -> & Hft).
           exists res. split; [reflexivity|].
           apply (ft_next a required amount rest res
                    [ETopUp a amount (Some "NIL") true; EGetBalance a (Some b); ESleep 2000]);
             [apply fp_short; lia | exact Hft].
      * match type of H with
        | context [NilContract.topUpAttempts C a required rest ?s0] =>
            destruct (NilContract.topUpAttempts C a required rest s0)
              as [[r2 s2] t2] eqn:Hrest
        end.
        simplify_eq. apply IH in Hrest as (res & -> & Hft).
        exists res. split; [reflexivity|].
        apply (ft_next a required amount rest res
                 [ETopUp a amount (Some "NIL") true; EGetBalance a None]);
          [apply fp_read | exact Hft].
    + match type of H with
      | context [NilContract.topUpAttempts C a required rest ?s0] =>
          destruct (NilContract.topUpAttempts C a required rest s0)
            as [[r2 s2] t2] eqn:Hrest
      end.
      simplify_eq. apply IH in Hrest as (res & -> & Hft).
      exists res. split; [reflexivity|].
      apply (ft_next a required amount rest res
               [ETopUp a amount (Some "NIL") false]);
        [apply fp_faucet | exact Hft].
Qed.

Lemma funding_trace_result a required attempts res t :
  funding_trace a required attempts res t ->
  if res
  then exists pre b,
      t = pre ++ [EGetBalance a (Some b)] /\ required <= b /\
      Forall (fun e => ~ sufficient_read a required e) pre
  else Forall (fun e => ~ sufficient_read a required e) t.
Proof.
  induction 1 as [| amount rest b Hb | amount rest res t0 t Hp Hft IH].
  - constructor.
  - exists [ETopUp a amount (Some "NIL") true], b. repeat split; [exact Hb|].
    constructor; [|constructor]. intros (b' & Heq & _). discriminate.
  - assert (Hp0 : Forall (fun e => ~ sufficient_read a required e) t0).
    { destruct Hp; repeat constructor; intros (b' & Heq & Hle);
        try discriminate. injection Heq as <-. lia. }
    destruct res.
    + destruct IH as (pre & b & -> & Hb & Hpre).
      exists (t0 ++ pre), b. rewrite app_assoc. repeat split; [exact Hb|].
      apply Forall_app. auto.
    + apply Forall_app. auto.
Qed.

Lemma funding_trace_amounts a required attempts res t :
  funding_trace a required attempts res t ->
  exists k : nat,
    (k <= length attempts)%nat /\
    faucet_amounts t = take k attempts /\
    (attempts <> [] -> (1 <= k)%nat) /\
    (res = false -> k = length attempts).
Proof.
  induction 1 as [| amount rest b Hb | amount rest res t0 t Hp Hft IH].
  - exists 0%nat. repeat split; auto; simpl; try lia. congruence.
  - exists 1%nat. simpl. repeat split; auto; try lia; try discriminate.
  - destruct IH as (k & Hk & Ham & _ & Hfalse).
    exists (S k). rewrite faucet_amounts_app, Ham.
    split; [simpl; lia|]. split; [destruct Hp; reflexivity|].
    split; [intros _; lia|].
    intros ->. rewrite Hfalse; reflexivity.
Qed.

Lemma funding_trace_sleeps a required attempts res t :
  funding_trace a required attempts res t ->
  exists n : nat, (n <= length attempts)%nat /\ sleeps t = repeat 2000 n.
Proof.
  induction 1 as [| amount rest b Hb | amount rest res t0 t Hp Hft IH].
  - exists 0%nat. split; [simpl; lia | reflexivity].
  - exists 0%nat. split; [simpl; lia | reflexivity].
  - destruct IH as (n & Hn & Hs). rewrite sleeps_app, Hs.
    destruct Hp; simpl.
    + exists n. split; [lia | reflexivity].
    + exists n. split; [lia | reflexivity].
    + exists (S n). split; [lia | reflexivity].
Qed.

(** The three ways [ensureAdequateFunding] can run. *)
Lemma ensureAdequateFunding_cases a required client s r s' t :
  NilContract.ensureAdequateFunding C a required client s = (r, s', t) ->
  (exists e w1,
      c_getBalance C a (world s) = (Throw e, w1) /\
      r = Ok false /\ t = [EGetBalance a None])
  \/ (exists b w1,
        c_getBalance C a (world s) = (Ok b, w1) /\ required <= b /\
        r = Ok true /\ s' = Build_Runtime (registry s) w1 /\
        t = [EGetBalance a (Some b)])
  \/ (exists b w1 res t',
        c_getBalance C a (world s) = (Ok b, w1) /\ b < required /\
        r = Ok res /\ t = EGetBalance a (Some b) :: t' /\
        funding_trace a required
          [required * 2; required; Js.bigint_div required 2] res t').
Proof.
  unfold NilContract.ensureAdequateFunding.
  unfold try_catch at 1. unfold bind at 1. unfold getBalance at 1, call.
  destruct (c_getBalance C a (world s)) as [[b|e] w1] eqn:Hb;
    cbv beta iota zeta.
  - destruct (required <=? b) eqn:Hle.
    + unfold ret. simpl. intros H. simplify_eq.
      right. left. exists b, w1. repeat split; auto. lia.
    + match goal with
      | |- context [NilContract.topUpAttempts C a required ?l ?s0] =>
          destruct (NilContract.topUpAttempts C a required l s0)
            as [[r2 s2] t2] eqn:Hloop
      end.
      apply topUpAttempts_trace in Hloop as (res & -> & Hft).
      simpl. intros H. simplify_eq.
      right. right. exists b, w1, res, t2. repeat split; auto. lia.
  - unfold ret. simpl. intros H. simplify_eq.
    left. exists e, w1. auto.
Qed.

Lemma stop_at_last {A} (P : A -> Prop) pre0 (l : A) pre e post :
  Forall (fun x => ~ P x) pre0 ->
  pre0 ++ [l] = pre ++ e :: post -> P e -> post = [].
Proof.
  intros Hall Heq HP.
  destruct post as [|z post'] using rev_ind; [reflexivity|].
  clear IHpost'. exfalso.
  rewrite app_comm_cons, app_assoc in Heq.
  apply app_inj_tail in Heq as [-> _].
  rewrite Forall_app in Hall. destruct Hall as [_ Hall].
  inversion Hall; auto.
Qed.

End Funding.

(* ===================================================================== *)
(** ** The confirmation poller *)
(* ===================================================================== *)

Section Poller.
Context {W : Type} (C : Collab W).

Lemma pollCode_trace a attempts s r s' t :
  NilContract.pollCode C a attempts s = (r, s', t) ->
  poll_trace a attempts r t.
Proof.
  revert s r s' t. induction attempts as [|attempt rest IH]; intros s r s' t H.
  - simpl in H. m_inv H. constructor.
  - simpl in H. unfold bind at 1 in H. unfold getCode at 1, call in H.
    destruct (c_getCode C a (world s)) as [[code|e] w1] eqn:Hc;
      cbv beta iota zeta in H.
    + destruct (NilContract.isEmptyCode code) eqn:Hempty; cbn [negb] in H;
        cbv beta iota zeta in H.
      * unfold bind at 1 in H.
        destruct (attempt <? 30) eqn:Hlt.
        -- unfold sleep at 1 in H. cbv beta iota zeta in H.
           match type of H with
           | context [NilContract.pollCode C a rest ?s0] =>
               destruct (NilContract.pollCode C a rest s0)
                 as [[r2 s2] t2] eqn:Hrest
           end.
           simplify_eq. apply IH in Hrest.
           apply (pt_wait a attempt rest code r t2 Hempty) in Hrest.
           unfold poll_wait in Hrest. rewrite Hlt in Hrest. exact Hrest.
        -- unfold ret at 1 in H. cbv beta iota zeta in H.
           match type of H with
           | context [NilContract.pollCode C a rest ?s0] =>
               destruct (NilContract.pollCode C a rest s0)
                 as [[r2 s2] t2] eqn:Hrest
           end.
           simplify_eq. apply IH in Hrest.
           apply (pt_wait a attempt rest code r t2 Hempty) in Hrest.
           unfold poll_wait in Hrest. rewrite Hlt in Hrest. exact Hrest.
      * unfold ret in H. cbv beta iota zeta in H. simplify_eq.
        simpl. apply pt_found. exact Hempty.
    + simplify_eq. simpl. constructor.
Qed.

Lemma poll_trace_bounds a attempts r t :
  poll_trace a attempts r t ->
  (code_polls t <= length attempts)%nat /\
  sleeps t `prefix_of` poll_waits attempts /\
  external_attempts t = 0%nat.
Proof.
  induction 1 as [| attempt rest code Hc | attempt rest e
                  | attempt rest code r t Hc Hpt (IHn & IHs & IHe)].
  - repeat split; [simpl; lia | apply prefix_nil].
  - repeat split; [simpl; lia | apply prefix_nil].
  - repeat split; [simpl; lia | apply prefix_nil].
  - split; [|split].
    + simpl. rewrite code_polls_app.
      assert (code_polls (map ESleep (poll_wait attempt)) = 0%nat) as ->.
      { unfold poll_wait. destruct (attempt <? 30); reflexivity. }
      lia.
    + simpl. rewrite sleeps_app.
      assert (sleeps (map ESleep (poll_wait attempt)) = poll_wait attempt) as ->.
      { unfold poll_wait. destruct (attempt <? 30); reflexivity. }
      unfold poll_waits. simpl. apply prefix_app. exact IHs.
    + simpl. rewrite external_attempts_app, IHe.
      unfold poll_wait. destruct (attempt <? 30); reflexivity.
Qed.

Lemma poll_trace_found a attempts t :
  poll_trace a attempts (Ok true) t ->
  exists pre code,
    t = pre ++ [EGetCode a (Some code)] /\ NilContract.isEmptyCode code = false.
Proof.
  remember (Ok true) as r eqn:Hr.
  induction 1 as [| attempt rest code Hc | attempt rest e
                  | attempt rest code r t Hc Hpt IH]; try discriminate.
  - exists [], code. auto.
  - destruct (IH Hr) as (pre & code' & -> & Hcode').
    exists (EGetCode a (Some code) :: map ESleep (poll_wait attempt) ++ pre), code'.
    split; [|exact Hcode']. simpl. rewrite app_assoc. reflexivity.
Qed.

(** If no poll finds code and none throws, the loop uses every attempt. *)
Lemma poll_trace_exhausted a attempts t :
  poll_trace a attempts (Ok false) t ->
  code_polls t = length attempts /\ sleeps t = poll_waits attempts.
Proof.
  remember (Ok false) as r eqn:Hr.
  induction 1 as [| attempt rest code Hc | attempt rest e
                  | attempt rest code r t Hc Hpt IH]; try discriminate.
  - auto.
  - destruct (IH Hr) as [IHn IHs]. split.
    + simpl. rewrite code_polls_app, IHn.
      unfold poll_wait. destruct (attempt <? 30); reflexivity.
    + simpl. rewrite sleeps_app, IHs.
      unfold poll_waits, poll_wait. simpl. destruct (attempt <? 30); reflexivity.
Qed.

(** [waitForContractDeployment] always returns; it polls at most thirty
    times, waits along the schedule, never starts an external deployment,
    and answers [true] only right after reading non-empty code. *)
Lemma waitForContractDeployment_shape client a h s r s' t :
  NilContract.waitForContractDeployment C client a h s = (r, s', t) ->
  exists b : bool,
    r = Ok b /\
    (code_polls t <= 30)%nat /\
    sleeps t `prefix_of` poll_waits (NilContract.attempt_range 1 30) /\
    external_attempts t = 0%nat /\
    (b = true ->
     exists pre code,
       t = pre ++ [EGetCode a (Some code)] /\
       NilContract.isEmptyCode code = false).
Proof.
  unfold NilContract.waitForContractDeployment. intros H.
  m_auto.
  all: try (eexists; split; [reflexivity|]; simpl;
            repeat split; [lia | apply prefix_nil | discriminate]).
  - match goal with
    | H : NilContract.pollCode _ _ _ _ = _ |- _ =>
        apply pollCode_trace in H;
        destruct (poll_trace_bounds _ _ _ _ H) as (Hn & Hs & He);
        eexists; split; [reflexivity|]; simpl; repeat split; auto;
        intros ->; apply poll_trace_found in H as (pre & code & -> & Hcode)
    end.
    eexists (_ :: _ :: pre), code. split; [reflexivity | exact Hcode].
  - match goal with
    | H : NilContract.pollCode _ _ _ _ = _ |- _ =>
        apply pollCode_trace in H;
        destruct (poll_trace_bounds _ _ _ _ H) as (Hn & Hs & He)
    end.
    exists false. split; [reflexivity|]. rewrite app_nil_r. simpl.
    repeat split; auto. discriminate.
Qed.

End Poller.

(* ===================================================================== *)
(** ** Funding and polling: the claims *)
(* ===================================================================== *)

Lemma balance_reads_app t1 t2 :
  balance_reads (t1 ++ t2) = (balance_reads t1 + balance_reads t2)%nat.
Proof.
  induction t1 as [|e t1 IH]; [reflexivity|].
  destruct e; simpl; rewrite IH; reflexivity.
Qed.

Lemma prefix_sum_le (l1 l2 : list Z) :
  l1 `prefix_of` l2 -> Forall (fun x => 0 <= x) l2 ->
  foldr Z.add 0 l1 <= foldr Z.add 0 l2.
Proof.
  intros [k ->] Hall. apply Forall_app in Hall as [_ Hk].
  induction l1 as [|x l1 IH]; simpl.
  - induction Hk; simpl; lia.
  - lia.
Qed.

Section Legacy.
Context {W : Type} (C : Collab W).

Lemma tryTopUp_trace a amount n s r s' t :
  NilContractLegacy.tryTopUp C a amount n s = (r, s', t) ->
  exists (ok : bool) (k : nat),
    r = Ok ok /\ (k <= n)%nat /\
    faucet_amounts t = take k (halvings amount n) /\
    (n <> O -> (1 <= k)%nat) /\
    (ok = false -> k = n) /\
    balance_reads t = O /\
    (ok = true ->
     exists pre amount',
       t = pre ++ [ETopUp a amount' None true; ESleep 5000]).
Proof.
  revert amount s r s' t. induction n as [|n IH]; intros amount s r s' t H.
  - simpl in H. m_inv H. exists false, O. repeat split; auto; try lia; congruence.
  - simpl in H. m_inv H.
    + m_auto.
      * exists true, 1%nat. simpl.
        repeat split; auto; try lia; try discriminate.
        intros _. eexists [], _. reflexivity.
      * apply IH in Hk as (ok & k & -> & Hk & Ham & _ & Hfalse & Hbr & Hlast).
        exists ok, (S k). rewrite faucet_amounts_app, balance_reads_app, Ham, Hbr.
        simpl.
        split; [reflexivity|]. split; [lia|]. split; [reflexivity|].
        split; [lia|]. split; [intros Hf; rewrite (Hfalse Hf); reflexivity|].
        split; [reflexivity|].
        intros Ht. destruct (Hlast Ht) as (pre & amount' & ->).
        eexists (_ :: _ :: pre), amount'. reflexivity.
    + m_auto.
Qed.

Lemma tryTopUp_S a amount m :
  NilContractLegacy.tryTopUp C a amount (S m)
  = bind (try_catch
            (bind (topUp C a amount None)
               (fun _ => bind (sleep C 5000) (fun _ => ret true)))
            (fun _ => bind (sleep C 3000) (fun _ => ret false)))
      (fun returned : bool =>
         if returned then ret true
         else NilContractLegacy.tryTopUp C a (Js.bigint_div amount 2) m).
Proof. reflexivity. Qed.

(** The loop goes on to the next amount only after a faucet call that
    threw (and a three-second wait); the first call that resolves ends it
    with [true] after a five-second wait. *)
Lemma tryTopUp_stop_rule a amount n s r s' t :
  NilContractLegacy.tryTopUp C a amount (S n) s = (r, s', t) ->
  exists (ok : bool) (k : nat),
    r = Ok ok /\ (1 <= k <= S n)%nat /\
    faucet_amounts t = take k (halvings amount (S n)) /\
    (ok = false -> k = S n) /\
    balance_reads t = O /\
    faucet_outcomes t = repeat false (k - 1) ++ [ok] /\
    sleeps t = repeat 3000 (k - 1) ++ [if ok then 5000 else 3000].
Proof.
  revert amount s r s' t. induction n as [|n IH]; intros amount s r s' t H.
  - simpl in H. m_auto.
    + exists true, 1%nat. simpl. repeat split; auto; try lia; discriminate.
    + exists false, 1%nat. simpl. repeat split; auto; lia.
  - rewrite tryTopUp_S in H. m_inv H.
    + m_auto.
      * exists true, 1%nat. simpl. repeat split; auto; try lia; discriminate.
      * apply IH in Hk as (ok & k & -> & Hk & Ham & Hfalse & Hbr & Hout & Hsl).
        exists ok, (S k).
        rewrite faucet_amounts_app, faucet_outcomes_app, sleeps_app, balance_reads_app,
          Ham, Hout, Hsl, Hbr.
        split; [reflexivity|]. split; [lia|]. split; [reflexivity|].
        split; [intros Hf; rewrite (Hfalse Hf); reflexivity|].
        split; [reflexivity|].
        replace (S k - 1)%nat with (S (k - 1)) by lia.
        split; reflexivity.
    + m_auto.
Qed.

End Legacy.

Section FundingFacts.
Context {W : Type} (C : Collab W).

Lemma ensureAdequateFunding_returns a required client s :
  exists (ok : bool) s' t,
    NilContract.ensureAdequateFunding C a required client s = (Ok ok, s', t).
Proof.
  destruct (NilContract.ensureAdequateFunding C a required client s)
    as [[r s'] t] eqn:H.
  destruct (ensureAdequateFunding_cases C _ _ _ _ _ _ _ H)
    as [(e & w1 & _ & -> & _) | [(b & w1 & _ & _ & -> & _)
                                | (b & w1 & res & t' & _ & _ & -> & _)]];
    eauto.
Qed.

Lemma ensureAdequateFunding_verified a required client s s' t :
  NilContract.ensureAdequateFunding C a required client s = (Ok true, s', t) ->
  exists pre b,
    t = pre ++ [EGetBalance a (Some b)] /\ required <= b /\
    Forall (fun e => ~ sufficient_read a required e) pre.
Proof.
  intros H.
  destruct (ensureAdequateFunding_cases C _ _ _ _ _ _ _ H)
    as [(e & w1 & _ & Hr & _) | [(b & w1 & _ & Hb & _ & _ & ->)
                                | (b & w1 & res & t' & _ & Hb & Hr & -> & Hft)]].
  - discriminate.
  - exists [], b. repeat split; auto.
  - injection Hr as <-.
    apply funding_trace_result in Hft as (pre & b' & -> & Hb' & Hpre).
    exists (EGetBalance a (Some b) :: pre), b'. repeat split; auto.
    constructor; [|exact Hpre]. intros (b1 & Heq & Hle).
    injection Heq as <-. lia.
Qed.

Lemma ensureAdequateFunding_failed a required client s s' t :
  NilContract.ensureAdequateFunding C a required client s = (Ok false, s', t) ->
  Forall (fun e => ~ sufficient_read a required e) t.
Proof.
  intros H.
  destruct (ensureAdequateFunding_cases C _ _ _ _ _ _ _ H)
    as [(e & w1 & _ & _ & ->) | [(b & w1 & _ & _ & Hr & _)
                                | (b & w1 & res & t' & _ & Hb & Hr & -> & Hft)]].
  - repeat constructor. intros (b & Heq & _). discriminate.
  - discriminate.
  - injection Hr as <-. apply funding_trace_result in Hft.
    constructor; [|exact Hft]. intros (b1 & Heq & Hle).
    injection Heq as <-. lia.
Qed.

Lemma ensureAdequateFunding_bounds a required client s r s' t :
  NilContract.ensureAdequateFunding C a required client s = (r, s', t) ->
  (length (faucet_amounts t) <= 3)%nat /\ total_sleep t <= 6000.
Proof.
  intros H.
  destruct (ensureAdequateFunding_cases C _ _ _ _ _ _ _ H)
    as [(e & w1 & _ & _ & ->) | [(b & w1 & _ & _ & _ & _ & ->)
                                | (b & w1 & res & t' & _ & Hb & Hr & -> & Hft)]].
  - split; [simpl; lia | unfold total_sleep; simpl; lia].
  - split; [simpl; lia | unfold total_sleep; simpl; lia].
  - destruct (funding_trace_amounts _ _ _ _ _ Hft) as (k & Hk & Ham & _).
    destruct (funding_trace_sleeps _ _ _ _ _ Hft) as (n & Hn & Hs).
    simpl in Hk, Hn. split.
    + simpl. rewrite Ham, length_take. simpl. lia.
    + unfold total_sleep. simpl. rewrite Hs.
      destruct n as [|[|[|[|n]]]]; simpl; lia.
Qed.

End FundingFacts.

(** C7. If the balance of the target address already covers the required
    amount when the funding routine starts, it returns success at once:
    the only interaction is that balance read, and no faucet request is
    issued. *)
Theorem funding_fast_path {W} (C : Collab W) a required client s b w1 :
  c_getBalance C a (world s) = (Ok b, w1) ->
  required <= b ->
  NilContract.ensureAdequateFunding C a required client s
  = (Ok true, Build_Runtime (registry s) w1, [EGetBalance a (Some b)])
  /\ faucet_amounts
       (trace (NilContract.ensureAdequateFunding C a required client s)) = [].
Proof.
  intros Hb Hle.
  assert (H : NilContract.ensureAdequateFunding C a required client s
              = (Ok true, Build_Runtime (registry s) w1, [EGetBalance a (Some b)])).
  { unfold NilContract.ensureAdequateFunding, try_catch, bind, getBalance, call.
    rewrite Hb. simpl. apply Z.leb_le in Hle. rewrite Hle. reflexivity. }
  rewrite H. split; reflexivity.
Qed.

Lemma funding_fast_path_witness :
  NilContract.ensureAdequateFunding Sim.collab "0xa" 1000 Sim.client1
    (Sim.start (Sim.credit 5000 Sim.healthy))
  = (Ok true, Sim.start (Sim.credit 5000 Sim.healthy), [EGetBalance "0xa" (Some 5000)])
  /\ faucet_amounts
       (trace (NilContract.ensureAdequateFunding Sim.collab "0xa" 1000 Sim.client1
                 (Sim.start (Sim.credit 5000 Sim.healthy)))) = [].
Proof.
  apply (funding_fast_path Sim.collab "0xa" 1000 Sim.client1
           (Sim.start (Sim.credit 5000 Sim.healthy)) 5000 (Sim.credit 5000 Sim.healthy)).
  - reflexivity.
  - lia.
Defined.

(** The scenario of the specification: 1,000,000 required, an empty
    account and a faucet that credits the first request of 2,000,000: one
    faucet call and one balance re-check. *)
Example funding_first_request_succeeds :
  let x := NilContract.ensureAdequateFunding Sim.collab "0xa" 1000000 Sim.client1
             (Sim.start Sim.healthy) in
  outcome x = Ok true /\
  trace x = [EGetBalance "0xa" (Some 0);
             ETopUp "0xa" 2000000 (Some "NIL") true;
             EGetBalance "0xa" (Some 2000000)].
Proof. vm_compute. split; reflexivity. Qed.

(** C1 (amended). Whenever [ensureAdequateFunding] returns true, the last
    thing it did was a balance read of the target showing at least the
    required amount, so a balance read after the most recent faucet request
    confirmed the funds.  The earlier revision's [tryTopUp] never reads a
    balance: when it returns true, its last actions are an acknowledged
    faucet request and the five-second wait. *)
Theorem funding_success_verified :
  (forall W (C : Collab W) a required client s s' t,
      NilContract.ensureAdequateFunding C a required client s = (Ok true, s', t) ->
      balance_verified a required t = true /\
      exists pre b, t = pre ++ [EGetBalance a (Some b)] /\ required <= b)
  /\
  (forall W (C : Collab W) a amount n s r s' t,
      NilContractLegacy.tryTopUp C a amount n s = (r, s', t) ->
      balance_reads t = O /\
      (r = Ok true ->
       exists pre amount', t = pre ++ [ETopUp a amount' None true; ESleep 5000])).
Proof.
  split.
  - intros W C a required client s s' t H.
    apply ensureAdequateFunding_verified in H as (pre & b & -> & Hb & _).
    split; [apply balance_verified_last; exact Hb | eauto].
  - intros W C a amount n s r s' t H.
    apply tryTopUp_trace in H as (ok & k & -> & _ & _ & _ & _ & Hbr & Hlast).
    split; [exact Hbr|]. intros [= ->]. auto.
Qed.

Lemma funding_success_verified_witness :
  balance_verified "0xa" 1000
    [EGetBalance "0xa" (Some 0); ETopUp "0xa" 2000 (Some "NIL") true;
     EGetBalance "0xa" (Some 2000)] = true.
Proof.
  apply (proj1 funding_success_verified Sim.World Sim.collab "0xa" 1000 Sim.client1
           (Sim.start Sim.healthy) (Sim.start (Sim.credit 2000 Sim.healthy))).
  reflexivity.
Defined.

(** The earlier revision's [tryTopUp] reports success on the faucet's
    acknowledgement although nothing was credited and no balance was read. *)
Lemma legacy_success_unverified :
  let x := NilContractLegacy.tryTopUp Sim.collab "0xa" 1001 3
             (Sim.start Sim.hollow_faucet) in
  outcome x = Ok true /\
  trace x = [ETopUp "0xa" 1001 None true; ESleep 5000] /\
  balance_verified "0xa" 1001 (trace x) = false.
Proof. repeat split. Qed.

(** C6 (amended). When the initial balance is below the required amount,
    [ensureAdequateFunding] issues its faucet requests along the schedule
    [required * 2], [required], [required / 2] (BigInt division, so the
    half is rounded toward zero), in that order: the amounts requested are
    the first [k] of these, with all three used when it reports failure,
    and nothing follows a balance read that shows the required amount.  The
    earlier revision's [tryTopUp] instead requests [amount], [amount / 2],
    [amount / 4], moving to the next amount only when the faucet call
    throws: every request before the last one threw and was followed by a
    three-second wait, the result is whether the last request resolved
    (then followed by a five-second wait), and no balance is ever read. *)
Theorem funding_schedule :
  (forall W (C : Collab W) a required client s b0 w1 r s' t,
      c_getBalance C a (world s) = (Ok b0, w1) ->
      b0 < required ->
      NilContract.ensureAdequateFunding C a required client s = (r, s', t) ->
      exists (ok : bool) (k : nat),
        r = Ok ok /\ (1 <= k <= 3)%nat /\
        faucet_amounts t = take k [required * 2; required; Z.quot required 2] /\
        (ok = false -> k = 3%nat) /\
        (forall pre e post,
            t = pre ++ e :: post -> sufficient_read a required e ->
            post = [] /\ ok = true))
  /\
  (forall W (C : Collab W) a amount s r s' t,
      NilContractLegacy.tryTopUp C a amount 3 s = (r, s', t) ->
      exists (ok : bool) (k : nat),
        r = Ok ok /\ (1 <= k <= 3)%nat /\
        faucet_amounts t
        = take k [amount; Z.quot amount 2; Z.quot (Z.quot amount 2) 2] /\
        (ok = false -> k = 3%nat) /\
        balance_reads t = O /\
        faucet_outcomes t = repeat false (k - 1) ++ [ok] /\
        sleeps t = repeat 3000 (k - 1) ++ [if ok then 5000 else 3000]).
Proof.
  split.
  - intros W C a required client s b0 w1 r s' t Hb0 Hlt H.
    destruct (ensureAdequateFunding_cases C _ _ _ _ _ _ _ H)
      as [(e & w2 & Hb & _) | [(b & w2 & Hb & Hle & _)
                              | (b & w2 & res & t' & Hb & _ & -> & -> & Hft)]].
    + rewrite Hb0 in Hb. discriminate.
    + rewrite Hb0 in Hb. injection Hb as <- <-. lia.
    + rewrite Hb0 in Hb. injection Hb as <- <-.
      destruct (funding_trace_amounts _ _ _ _ _ Hft) as (k & Hk & Ham & Hpos & Hfalse).
      exists res, k. simpl in Hk.
      split; [reflexivity|]. split; [split; [apply Hpos; discriminate | lia]|].
      split; [exact Ham|]. split; [exact Hfalse|].
      intros pre e post Heq Hsuff.
      pose proof (funding_trace_result _ _ _ _ _ Hft) as Hres.
      destruct res.
      * destruct Hres as (pre0 & b' & -> & Hb' & Hpre).
        split; [|reflexivity].
        apply (stop_at_last (sufficient_read a required)
                 (EGetBalance a (Some b0) :: pre0) (EGetBalance a (Some b')) pre e post);
          auto.
        constructor; [|exact Hpre]. intros (b1 & Hb1 & Hle1).
        injection Hb1 as <-. lia.
      * exfalso.
        assert (Hall : Forall (fun e => ~ sufficient_read a required e)
                         (EGetBalance a (Some b0) :: t')).
        { constructor; [|exact Hres]. intros (b1 & Hb1 & Hle1).
          injection Hb1 as <-. lia. }
        rewrite Heq in Hall. apply Forall_app in Hall as [_ Hall].
        inversion Hall; auto.
  - intros W C a amount s r s' t H.
    apply tryTopUp_stop_rule in H. exact H.
Qed.

(** A faucet that rejects requests above 1500: both routines get their
    second request through. *)
Lemma funding_schedule_witness :
  (exists (ok : bool) (k : nat),
      Ok true = Ok ok /\ (1 <= k <= 3)%nat /\
      faucet_amounts
        [EGetBalance "0xa" (Some 0); ETopUp "0xa" 2000 (Some "NIL") false;
         ETopUp "0xa" 1000 (Some "NIL") true; EGetBalance "0xa" (Some 1000)]
      = take k [1000 * 2; 1000; Z.quot 1000 2] /\
      (ok = false -> k = 3%nat) /\
      (forall pre e post,
          [EGetBalance "0xa" (Some 0); ETopUp "0xa" 2000 (Some "NIL") false;
           ETopUp "0xa" 1000 (Some "NIL") true; EGetBalance "0xa" (Some 1000)]
          = pre ++ e :: post ->
          sufficient_read "0xa" 1000 e -> post = [] /\ ok = true))
  /\
  (exists (ok : bool) (k : nat),
      Ok true = Ok ok /\ (1 <= k <= 3)%nat /\
      faucet_amounts
        [ETopUp "0xa" 2000 None false; ESleep 3000;
         ETopUp "0xa" 1000 None true; ESleep 5000]
      = take k [2000; Z.quot 2000 2; Z.quot (Z.quot 2000 2) 2] /\
      (ok = false -> k = 3%nat) /\
      balance_reads
        [ETopUp "0xa" 2000 None false; ESleep 3000;
         ETopUp "0xa" 1000 None true; ESleep 5000] = O /\
      faucet_outcomes
        [ETopUp "0xa" 2000 None false; ESleep 3000;
         ETopUp "0xa" 1000 None true; ESleep 5000]
      = repeat false (k - 1) ++ [ok] /\
      sleeps
        [ETopUp "0xa" 2000 None false; ESleep 3000;
         ETopUp "0xa" 1000 None true; ESleep 5000]
      = repeat 3000 (k - 1) ++ [if ok then 5000 else 3000]).
Proof.
  split.
  - apply (proj1 funding_schedule Sim.World (Sim.capped 1500) "0xa" 1000 Sim.client1
             (Sim.start Sim.healthy) 0 Sim.healthy (Ok true)
             (Sim.start (Sim.credit 1000 Sim.healthy))).
    + reflexivity.
    + lia.
    + reflexivity.
  - apply (proj2 funding_schedule Sim.World (Sim.capped 1500) "0xa" 2000
             (Sim.start Sim.healthy) (Ok true)
             (Sim.start (Sim.credit 1000 Sim.healthy))).
    reflexivity.
Defined.

(** With the faucet down and 1001 required, the earlier revision's
    [tryTopUp] requests 1001, 500 and 250 rather than twice, once and half
    the amount; [ensureAdequateFunding] requests 2002, 1001 and 500, and
    500 is not half of 1001. *)
Lemma funding_schedule_counterexample :
  faucet_amounts
    (trace (NilContractLegacy.tryTopUp Sim.collab "0xa" 1001 3
              (Sim.start Sim.faucet_down)))
  = [1001; 500; 250]
  /\ faucet_amounts
       (trace (NilContract.ensureAdequateFunding Sim.collab "0xa" 1001 Sim.client1
                 (Sim.start Sim.faucet_down)))
     = [2002; 1001; 500]
  /\ 2 * 500 <> 1001.
Proof. repeat split. lia. Qed.

Lemma poll_waits_documented :
  poll_waits (NilContract.attempt_range 1 30)
  = map documented_backoff (NilContract.attempt_range 1 29).
Proof. reflexivity. Qed.

Lemma documented_schedule_total :
  foldr Z.add 0 (map documented_backoff (NilContract.attempt_range 1 29)) = 570000.
Proof. reflexivity. Qed.

Lemma documented_schedule_nonneg :
  Forall (fun x => 0 <= x) (map documented_backoff (NilContract.attempt_range 1 29)).
Proof.
  apply Forall_forall. intros x Hx. apply list_elem_of_In, in_map_iff in Hx.
  destruct Hx as (k & <- & Hk). unfold NilContract.attempt_range in Hk.
  apply in_map_iff in Hk as (n & <- & _). unfold documented_backoff. lia.
Qed.

(** C5. Both retry loops end within their attempt bounds whatever the
    collaborators answer.  [waitForContractDeployment] always returns a
    boolean after at most 30 code polls; its waits are an initial segment
    of the documented backoff (six seconds after the first poll, one more
    second after each further poll, never more than thirty) and add up to
    at most 570 seconds; it answers true only right after a poll that
    showed code.  [ensureAdequateFunding] always returns a boolean after at
    most 3 faucet requests and at most 6 seconds of waiting, and it
    returns false when no balance read showed the required amount. *)
Theorem bounded_retries {W} (C : Collab W) client a h required s :
  (exists (b : bool) s' t,
      NilContract.waitForContractDeployment C client a h s = (Ok b, s', t) /\
      (code_polls t <= 30)%nat /\
      sleeps t `prefix_of` map documented_backoff (NilContract.attempt_range 1 29) /\
      total_sleep t <= 570000 /\
      ((forall code, In (EGetCode a (Some code)) t ->
                     NilContract.isEmptyCode code = true) -> b = false))
  /\
  (exists (ok : bool) s' t,
      NilContract.ensureAdequateFunding C a required client s = (Ok ok, s', t) /\
      (length (faucet_amounts t) <= 3)%nat /\
      total_sleep t <= 6000 /\
      (Forall (fun e => ~ sufficient_read a required e) t -> ok = false)).
Proof.
  split.
  - destruct (NilContract.waitForContractDeployment C client a h s)
      as [[r s'] t] eqn:H.
    destruct (waitForContractDeployment_shape C _ _ _ _ _ _ _ H)
      as (b & -> & Hn & Hs & _ & Hfound).
    exists b, s', t. rewrite poll_waits_documented in Hs.
    split; [reflexivity|]. split; [exact Hn|]. split; [exact Hs|]. split.
    + rewrite <- documented_schedule_total. unfold total_sleep.
      apply prefix_sum_le; [exact Hs | apply documented_schedule_nonneg].
    + intros Hnone. destruct b; [|reflexivity].
      destruct (Hfound eq_refl) as (pre & code & -> & Hcode).
      rewrite (Hnone code) in Hcode; [discriminate|].
      apply in_or_app. right. left. reflexivity.
  - destruct (ensureAdequateFunding_returns C a required client s)
      as (ok & s' & t & H).
    exists ok, s', t. split; [exact H|].
    destruct (ensureAdequateFunding_bounds C _ _ _ _ _ _ _ H) as [Hn Hs].
    split; [exact Hn|]. split; [exact Hs|].
    intros Hnone. destruct ok; [|reflexivity].
    apply ensureAdequateFunding_verified in H as (pre & b & -> & Hb & _).
    apply Forall_app in Hnone as [_ Hlast].
    inversion Hlast as [|? ? Hx _]; subst. exfalso. apply Hx.
    exists b. auto.
Qed.

(* ===================================================================== *)
(** ** Strategy selection and fallback *)
(* ===================================================================== *)

Section Strategy.
Context {W : Type} (C : Collab W).

Lemma funding_trace_external a required attempts res t :
  funding_trace a required attempts res t -> external_attempts t = 0%nat.
Proof.
  induction 1 as [| | amount rest res t0 t Hp Hft IH]; try reflexivity.
  rewrite external_attempts_app, IH. destruct Hp; reflexivity.
Qed.

Lemma ensureAdequateFunding_external a required client s r s' t :
  NilContract.ensureAdequateFunding C a required client s = (r, s', t) ->
  external_attempts t = 0%nat.
Proof.
  intros H.
  destruct (ensureAdequateFunding_cases C _ _ _ _ _ _ _ H)
    as [(e & w1 & _ & _ & ->) | [(b & w1 & _ & _ & _ & _ & ->)
                                | (b & w1 & res & t' & _ & _ & _ & -> & Hft)]];
    try reflexivity.
  simpl. eapply funding_trace_external; eauto.
Qed.

Lemma deployContractInternal_external client params s r s' t :
  NilContract.deployContractInternal C client params s = (r, s', t) ->
  external_attempts t = 0%nat.
Proof.
  unfold NilContract.deployContractInternal, NilContract.generateRandomSalt.
  intros H. m_auto; reflexivity.
Qed.

Lemma deployContractExternal_external client params chain s r s' t :
  NilContract.deployContractExternal C client params chain s = (r, s', t) ->
  external_attempts t = 1%nat.
Proof.
  unfold NilContract.deployContractExternal, NilContract.generateRandomSalt.
  intros H. m_auto;
    repeat match goal with
      | H : NilContract.ensureAdequateFunding _ _ _ _ _ = _ |- _ =>
          apply ensureAdequateFunding_external in H
      end;
    rewrite ?external_attempts_app; simpl; rewrite ?external_attempts_app;
    simpl; lia.
Qed.

Lemma waitForContractDeployment_external client a h s r s' t :
  NilContract.waitForContractDeployment C client a h s = (r, s', t) ->
  external_attempts t = 0%nat.
Proof.
  intros H. apply waitForContractDeployment_shape in H as (b & _ & _ & _ & He & _).
  exact He.
Qed.

Lemma externalDeployment_external args client params chain s r s' t :
  NilContract.externalDeployment C args client params chain s = (r, s', t) ->
  external_attempts t = 1%nat.
Proof.
  unfold NilContract.externalDeployment. intros H. m_auto;
    repeat match goal with
      | H : NilContract.deployContractExternal _ _ _ _ _ = _ |- _ =>
          apply deployContractExternal_external in H
      | H : NilContract.waitForContractDeployment _ _ _ _ _ = _ |- _ =>
          apply waitForContractDeployment_external in H
      end;
    rewrite ?external_attempts_app; simpl; lia.
Qed.

Lemma tryInternalDeployment_external args client params s r s' t :
  NilContract.tryInternalDeployment C args client params s = (r, s', t) ->
  external_attempts t = 0%nat.
Proof.
  unfold NilContract.tryInternalDeployment. intros H. m_auto;
    repeat match goal with
      | H : NilContract.deployContractInternal _ _ _ _ = _ |- _ =>
          apply deployContractInternal_external in H
      | H : NilContract.waitForContractDeployment _ _ _ _ _ = _ |- _ =>
          apply waitForContractDeployment_external in H
      end;
    rewrite ?external_attempts_app; simpl; lia.
Qed.

Lemma selectStrategy_external args client params chain s r s' t :
  NilContract.selectStrategy C args client params chain s = (r, s', t) ->
  (external_attempts t <= 1)%nat.
Proof.
  unfold NilContract.selectStrategy. intros H. m_auto;
    repeat match goal with
      | H : NilContract.tryInternalDeployment _ _ _ _ _ = _ |- _ =>
          apply tryInternalDeployment_external in H
      | H : NilContract.externalDeployment _ _ _ _ _ _ = _ |- _ =>
          apply externalDeployment_external in H
      end;
    rewrite ?external_attempts_app; simpl; lia.
Qed.

Lemma deployContract_external CT args s r s' t :
  NilContract.deployContract C CT args s = (r, s', t) ->
  (external_attempts t <= 1)%nat.
Proof.
  unfold NilContract.deployContract, NilContract.checkShard. intros H. m_auto;
    repeat match goal with
      | H : NilContract.selectStrategy _ _ _ _ _ _ = _ |- _ =>
          apply selectStrategy_external in H
      end;
    rewrite ?external_attempts_app; simpl; lia.
Qed.

(** The internal block threw: the external deployment runs next. *)
Lemma selectStrategy_fallback args client params chain s e s1 t1 :
  NilContract.useInternalDeployment args = true ->
  NilContract.deployContractInternal C client params s = (Throw e, s1, t1) ->
  exists r s2 t2,
    NilContract.externalDeployment C args client params chain s1 = (r, s2, t2) /\
    NilContract.selectStrategy C args client params chain s = (r, s2, t1 ++ t2) /\
    external_attempts t1 = 0%nat /\ external_attempts t2 = 1%nat.
Proof.
  intros Hint Hthrow.
  destruct (NilContract.externalDeployment C args client params chain s1)
    as [[r s2] t2] eqn:Hext.
  exists r, s2, t2. split; [reflexivity|]. split.
  - unfold NilContract.selectStrategy, NilContract.tryInternalDeployment.
    rewrite Hint. unfold bind at 1. unfold try_catch at 1. unfold bind at 1.
    rewrite Hthrow. unfold ret at 1. cbv beta iota zeta.
    rewrite Hext. rewrite app_nil_r. reflexivity.
  - split; [eapply deployContractInternal_external; eauto
           | eapply externalDeployment_external; eauto].
Qed.

(** The internal deployment was submitted but not confirmed: the method
    returns its report and the external deployment is not started. *)
Lemma selectStrategy_unconfirmed args client params chain s hash addr s1 t1 s2 t2 :
  NilContract.useInternalDeployment args = true ->
  NilContract.deployContractInternal C client params s = (Ok (hash, addr), s1, t1) ->
  NilContract.waitForContractDeployment C client addr hash s1 = (Ok false, s2, t2) ->
  NilContract.selectStrategy C args client params chain s
  = (Ok (NilContract.VerificationTimedOut (NilContract.contractType args) addr hash
           (NilContract.shardId args)), s2, t1 ++ t2)
  /\ external_attempts (t1 ++ t2) = 0%nat.
Proof.
  intros Hint Hsub Hwait. split.
  - unfold NilContract.selectStrategy, NilContract.tryInternalDeployment.
    rewrite Hint. unfold bind at 1. unfold try_catch at 1. unfold bind at 1.
    rewrite Hsub. cbv beta iota zeta. unfold bind at 1. rewrite Hwait.
    simpl. unfold ret. rewrite !app_nil_r. reflexivity.
  - rewrite external_attempts_app.
    apply deployContractInternal_external in Hsub.
    apply waitForContractDeployment_external in Hwait. lia.
Qed.

End Strategy.

Section LegacyStrategy.
Context {W : Type} (C : Collab W).

Lemma tryTopUp_external a amount n s r s' t :
  NilContractLegacy.tryTopUp C a amount n s = (r, s', t) ->
  external_attempts t = 0%nat.
Proof.
  revert amount s r s' t. induction n as [|n IH]; intros amount s r s' t H.
  - simpl in H. m_inv H. reflexivity.
  - simpl in H. m_auto;
      repeat match goal with
        | H : NilContractLegacy.tryTopUp _ _ _ _ _ = _ |- _ => apply IH in H
        end;
      rewrite ?external_attempts_app; simpl; lia.
Qed.

(** The internal block of the earlier revision swallows every failure:
    it ends with a success report right after reading non-empty code, or
    falls through to the external deployment. *)
Lemma legacy_tryInternalDeployment_cases args client cfg bytecode fee salt s r s' t :
  NilContractLegacy.tryInternalDeployment C args client cfg bytecode fee salt s
  = (r, s', t) ->
  external_attempts t = 0%nat /\
  (r = Ok None \/
   exists addr account hash pre code,
     r = Ok (Some (NilContractLegacy.DeployedInternal
                     (NilContractLegacy.contractType args) addr account hash
                     (NilContractLegacy.shardId args))) /\
     t = pre ++ [EGetCode addr (Some code)] /\
     NilContractLegacy.isEmptyCode code = false).
Proof.
  unfold NilContractLegacy.tryInternalDeployment. intros H.
  m_auto;
    repeat match goal with
      | H : NilContractLegacy.tryTopUp _ _ _ _ _ = _ |- _ =>
          apply tryTopUp_external in H
      end;
    (split; [rewrite ?external_attempts_app; simpl;
             rewrite ?external_attempts_app; simpl; lia|]);
    try (left; reflexivity).
  right. do 5 eexists. split; [reflexivity|]. split; [|eassumption].
  rewrite app_nil_r, !app_assoc. reflexivity.
Qed.

Lemma legacy_externalDeployment_external args client cfg bytecode fee salt chain
    s r s' t :
  NilContractLegacy.externalDeployment C args client cfg bytecode fee salt chain s
  = (r, s', t) ->
  external_attempts t = 1%nat.
Proof.
  unfold NilContractLegacy.externalDeployment. intros H.
  m_auto;
    repeat match goal with
      | H : NilContractLegacy.tryTopUp _ _ _ _ _ = _ |- _ =>
          apply tryTopUp_external in H
      end;
    rewrite ?external_attempts_app; simpl;
    rewrite ?external_attempts_app; simpl; lia.
Qed.

Lemma legacy_selectStrategy_cases args client cfg bytecode fee salt chain s r s' t :
  NilContractLegacy.selectStrategy C args client cfg bytecode fee salt chain s
  = (r, s', t) ->
  exists ri s1 t1,
    NilContractLegacy.tryInternalDeployment C args client cfg bytecode fee salt s
    = (ri, s1, t1) /\
    external_attempts t1 = 0%nat /\
    ((exists report, ri = Ok (Some report) /\ r = Ok report /\ t = t1) \/
     (ri = Ok None /\
      exists t2,
        NilContractLegacy.externalDeployment C args client cfg bytecode fee salt
          chain s1 = (r, s', t2) /\
        t = t1 ++ t2 /\ external_attempts t2 = 1%nat)).
Proof.
  unfold NilContractLegacy.selectStrategy. intros H. m_inv H.
  - pose proof (legacy_tryInternalDeployment_cases _ _ _ _ _ _ _ _ _ _ Hm)
      as [He Hcases].
    eexists _, _, _. split; [exact Hm|]. split; [exact He|].
    destruct x as [report|].
    + m_inv Hk. left. exists report. rewrite app_nil_r. auto.
    + right. split; [reflexivity|]. eexists. split; [exact Hk|].
      split; [reflexivity|].
      eapply legacy_externalDeployment_external; eauto.
  - pose proof (legacy_tryInternalDeployment_cases _ _ _ _ _ _ _ _ _ _ Hm)
      as [_ [? | (? & ? & ? & ? & ? & ? & _)]]; discriminate.
Qed.

Lemma legacy_deployContract_external CT args s r s' t :
  NilContractLegacy.deployContract C CT args s = (r, s', t) ->
  (external_attempts t <= 1)%nat.
Proof.
  unfold NilContractLegacy.deployContract, NilContractLegacy.generateRandomSalt.
  intros H. m_auto;
    repeat match goal with
      | H : NilContractLegacy.selectStrategy _ _ _ _ _ _ _ _ _ = _ |- _ =>
          apply legacy_selectStrategy_cases in H
            as (? & ? & ? & _ & ? & [(? & _ & _ & ->) | (_ & ? & _ & -> & ?)])
      end;
    rewrite ?external_attempts_app; simpl;
    rewrite ?external_attempts_app; simpl; lia.
Qed.

End LegacyStrategy.

(** C2 (amended). The external strategy is started at most once in every
    run of the deploy action, in both revisions.  In the current revision,
    with internal deployment requested: when the internal deployment throws
    (gas price, account creation, submission or contract top-up), the
    external deployment runs next, exactly once; when the internal
    deployment was submitted but its confirmation fails (no receipt,
    InsufficientFunds or another non-success status, an error, or code
    never visible), the action returns its verification-timed-out report
    and the external strategy is not started.  In the earlier revision the
    internal block either ends with a success report right after reading
    non-empty code, or - on any failure, confirmation included - is followed
    by exactly one external deployment. *)
Theorem fallback_policy :
  (forall W (C : Collab W) CT args s r s' t,
      NilContract.deployContract C CT args s = (r, s', t) ->
      (external_attempts t <= 1)%nat)
  /\
  (forall W (C : Collab W) CT args s r s' t,
      NilContractLegacy.deployContract C CT args s = (r, s', t) ->
      (external_attempts t <= 1)%nat)
  /\
  (forall W (C : Collab W) args client params chain s e s1 t1,
      NilContract.useInternalDeployment args = true ->
      NilContract.deployContractInternal C client params s = (Throw e, s1, t1) ->
      exists r s2 t2,
        NilContract.externalDeployment C args client params chain s1 = (r, s2, t2) /\
        NilContract.selectStrategy C args client params chain s = (r, s2, t1 ++ t2) /\
        external_attempts t1 = 0%nat /\ external_attempts t2 = 1%nat)
  /\
  (forall W (C : Collab W) args client params chain s hash addr s1 t1 s2 t2,
      NilContract.useInternalDeployment args = true ->
      NilContract.deployContractInternal C client params s = (Ok (hash, addr), s1, t1) ->
      NilContract.waitForContractDeployment C client addr hash s1 = (Ok false, s2, t2) ->
      NilContract.selectStrategy C args client params chain s
      = (Ok (NilContract.VerificationTimedOut (NilContract.contractType args) addr hash
               (NilContract.shardId args)), s2, t1 ++ t2)
      /\ external_attempts (t1 ++ t2) = 0%nat)
  /\
  (forall W (C : Collab W) args client cfg bytecode fee salt chain s r s' t,
      NilContractLegacy.selectStrategy C args client cfg bytecode fee salt chain s
      = (r, s', t) ->
      exists ri s1 t1,
        NilContractLegacy.tryInternalDeployment C args client cfg bytecode fee salt s
        = (ri, s1, t1) /\
        external_attempts t1 = 0%nat /\
        ((exists addr account hash pre code,
             ri = Ok (Some (NilContractLegacy.DeployedInternal
                              (NilContractLegacy.contractType args) addr account hash
                              (NilContractLegacy.shardId args))) /\
             t1 = pre ++ [EGetCode addr (Some code)] /\
             NilContractLegacy.isEmptyCode code = false /\
             t = t1) \/
         (ri = Ok None /\
          exists t2,
            NilContractLegacy.externalDeployment C args client cfg bytecode fee salt
              chain s1 = (r, s', t2) /\
            t = t1 ++ t2 /\ external_attempts t2 = 1%nat))).
Proof.
  split; [intros; eapply deployContract_external; eauto|].
  split; [intros; eapply legacy_deployContract_external; eauto|].
  split; [intros; eapply selectStrategy_fallback; eauto|].
  split; [intros; eapply selectStrategy_unconfirmed; eauto|].
  intros W C args client cfg bytecode fee salt chain s r s' t H.
  apply legacy_selectStrategy_cases in H
    as (ri & s1 & t1 & Hint & He & [(report & -> & -> & ->) | (-> & t2 & Hext & -> & He2)]).
  - exists (Ok (Some report)), s1, t1. split; [exact Hint|]. split; [exact He|].
    left.
    destruct (legacy_tryInternalDeployment_cases _ _ _ _ _ _ _ _ _ _ _ Hint)
      as [_ [Hnone | (addr & account & hash & pre & code & Heq & -> & Hcode)]];
      [discriminate|].
    exists addr, account, hash, pre, code. auto.
  - exists (Ok None), s1, t1. split; [exact Hint|]. split; [exact He|].
    right. split; [reflexivity|]. exists t2. auto.
Qed.

Lemma fallback_policy_witness :
  let x := NilContract.deployContractInternal Sim.collab Sim.client1 Sim.counter_params
             (Sim.start Sim.rejecting) in
  exists r s2 t2,
    NilContract.externalDeployment Sim.collab (Sim.counter_args true) Sim.client1
      Sim.counter_params 1 (snd (fst x)) = (r, s2, t2) /\
    NilContract.selectStrategy Sim.collab (Sim.counter_args true) Sim.client1
      Sim.counter_params 1 (Sim.start Sim.rejecting) = (r, s2, trace x ++ t2) /\
    external_attempts (trace x) = 0%nat /\ external_attempts t2 = 1%nat.
Proof.
  apply (proj1 (proj2 (proj2 fallback_policy)) Sim.World Sim.collab
           (Sim.counter_args true) Sim.client1 Sim.counter_params 1
           (Sim.start Sim.rejecting) (ErrorObj "submission rejected")).
  - reflexivity.
  - reflexivity.
Defined.

(** With internal deployment requested and a ledger that confirms the
    internal deployment with status InsufficientFunds, the current
    revision's deploy action ends with the verification-timed-out report:
    the receipt read is its last action and the external strategy is never
    started. *)
Lemma fallback_counterexample :
  let x := NilContract.deployContract Sim.collab Sim.counter_types
             (Sim.counter_args true) (Sim.start Sim.underfunded) in
  outcome x = Ok (NilContract.VerificationTimedOut "COUNTER" "0xc0de" "0xhash" 1) /\
  last (trace x)
  = Some (EGetReceipt "0xhash"
            (Some (Some {| receipt_status := StatusInsufficientFunds |}))) /\
  external_attempts (trace x) = 0%nat.
Proof. vm_compute. repeat split. Qed.

(* ===================================================================== *)
(** ** The dependent deployment sequence *)
(* ===================================================================== *)


Section Script.
Context {W : Type} (C : Collab W).




End Script.

Section ManufacturerAction.
Context {W : Type} (C : Collab W).









End ManufacturerAction.





(* ===================================================================== *)
(** ** The client registry *)
(* ===================================================================== *)

Section Registry.

Lemma entries_kept_refl r : entries_kept r r.
Proof. intros k c H. exact H. Qed.

Lemma entries_kept_trans r1 r2 r3 :
  entries_kept r1 r2 -> entries_kept r2 r3 -> entries_kept r1 r3.
Proof. intros H12 H23 k c H. apply H23, H12, H. Qed.

Lemma getClient_kept shard r : entries_kept r (snd (NilContract.getClient shard r)).
Proof.
  intros k c H. unfold NilContract.getClient. simpl.
  destruct (bool_decide (is_Some (clients r !! shard))) eqn:Hhas; simpl; [exact H|].
  apply bool_decide_eq_false in Hhas.
  destruct (decide (shard = k)) as [->|Hne].
  - exfalso. apply Hhas. rewrite H. eauto.
  - rewrite lookup_insert_ne; auto.
Qed.

Lemma getClient_returns shard r :
  exists c,
    fst (NilContract.getClient shard r) = Some c /\
    clients (snd (NilContract.getClient shard r)) !! shard = Some c.
Proof.
  unfold NilContract.getClient. simpl.
  destruct (bool_decide (is_Some (clients r !! shard))) eqn:Hhas; simpl.
  - apply bool_decide_eq_true in Hhas. destruct Hhas as [c Hc]. eauto.
  - rewrite lookup_insert_eq. eauto.
Qed.

Lemma getClient_stored shard r c :
  clients r !! shard = Some c ->
  NilContract.getClient shard r = (Some c, r).
Proof.
  intros H. unfold NilContract.getClient.
  rewrite bool_decide_eq_true_2 by (rewrite H; eauto). simpl.
  rewrite H. reflexivity.
Qed.

Lemma getClients_kept shards r : entries_kept r (getClients shards r).
Proof.
  revert r. induction shards as [|shard rest IH]; intros r.
  - apply entries_kept_refl.
  - simpl. eapply entries_kept_trans; [apply getClient_kept | apply IH].
Qed.

End Registry.

Section KeepsEntries.
Context {W : Type}.

Lemma keeps_ret {A} (a : A) : keeps_entries (ret (W := W) a).
Proof. intros s r s' t H. m_inv H. apply entries_kept_refl. Qed.

Lemma keeps_throw {A} e : keeps_entries (throw (W := W) (A := A) e).
Proof. intros s r s' t H. m_inv H. apply entries_kept_refl. Qed.

Lemma keeps_bind {A B} (m : M W A) (k : A -> M W B) :
  keeps_entries m -> (forall a, keeps_entries (k a)) -> keeps_entries (bind m k).
Proof.
  intros Hm Hk s r s' t H. m_inv H.
  - eapply entries_kept_trans; [eapply Hm | eapply Hk]; eauto.
  - eapply Hm; eauto.
Qed.

Lemma keeps_try_catch {A} (m : M W A) (h : JsError -> M W A) :
  keeps_entries m -> (forall e, keeps_entries (h e)) ->
  keeps_entries (try_catch m h).
Proof.
  intros Hm Hh s r s' t H. m_inv H.
  - eapply Hm; eauto.
  - eapply entries_kept_trans; [eapply Hm | eapply Hh]; eauto.
Qed.

Lemma keeps_call {A} (f : W -> Exc A * W) ev : keeps_entries (call f ev).
Proof. intros s r s' t H. m_inv H. apply entries_kept_refl. Qed.

Lemma keeps_sleep (C : Collab W) ms : keeps_entries (sleep C ms).
Proof. intros s r s' t H. m_inv H. apply entries_kept_refl. Qed.

Lemma keeps_Math_random (C : Collab W) : keeps_entries (Math_random C).
Proof. intros s r s' t H. m_inv H. apply entries_kept_refl. Qed.

Lemma keeps_randomBytes (C : Collab W) n : keeps_entries (crypto_randomBytes C n).
Proof. intros s r s' t H. m_inv H. apply entries_kept_refl. Qed.

Lemma keeps_generateKeyPairSync (C : Collab W) :
  keeps_entries (crypto_generateKeyPairSync C).
Proof. intros s r s' t H. m_inv H. apply entries_kept_refl. Qed.

Lemma keeps_this_getClient shard :
  keeps_entries (NilContract.this_getClient (W := W) shard).
Proof. intros s r s' t H. m_inv H. simpl. apply getClient_kept. Qed.

Lemma keeps_legacy_this_getClient shard :
  keeps_entries (NilContractLegacy.this_getClient (W := W) shard).
Proof. exact (keeps_this_getClient shard). Qed.

Lemma keeps_supply_this_getClient shard :
  keeps_entries (SupplyChain.this_getClient (W := W) shard).
Proof. exact (keeps_this_getClient shard). Qed.

End KeepsEntries.

Create HintDb keeps discriminated.
#[global] Hint Resolve keeps_ret keeps_throw keeps_call keeps_sleep
  keeps_Math_random keeps_randomBytes keeps_generateKeyPairSync
  keeps_this_getClient keeps_legacy_this_getClient keeps_supply_this_getClient
  : keeps.

(** Walk through a computation built from the combinators. *)
Ltac keeps :=
  repeat first
    [ solve [auto with keeps]
    | apply keeps_bind; [|intros ?]
    | apply keeps_try_catch; [|intros ?]
    | match goal with
      | |- keeps_entries (if ?b then _ else _) => destruct b
      | |- keeps_entries (match ?x with _ => _ end) => destruct x
      | |- keeps_entries (let '(_, _) := ?x in _) => destruct x
      end ].

Section ProviderKeeps.
Context {W : Type} (C : Collab W).

Lemma keeps_topUpAttempts a required attempts :
  keeps_entries (NilContract.topUpAttempts C a required attempts).
Proof.
  induction attempts as [|amount rest IH]; simpl; unfold topUp, getBalance; keeps.
Qed.

Lemma keeps_ensureAdequateFunding a required client :
  keeps_entries (NilContract.ensureAdequateFunding C a required client).
Proof.
  unfold NilContract.ensureAdequateFunding, getBalance.
  pose proof keeps_topUpAttempts. keeps.
Qed.

Lemma keeps_pollCode a attempts : keeps_entries (NilContract.pollCode C a attempts).
Proof.
  induction attempts as [|attempt rest IH]; simpl; unfold getCode; keeps.
Qed.

Lemma keeps_waitForContractDeployment client a h :
  keeps_entries (NilContract.waitForContractDeployment C client a h).
Proof.
  unfold NilContract.waitForContractDeployment, waitTillCompleted,
    getTransactionReceiptByHash.
  pose proof keeps_pollCode. keeps.
Qed.

Lemma keeps_deployContract CT args :
  keeps_entries (NilContract.deployContract C CT args).
Proof.
  pose proof keeps_ensureAdequateFunding.
  pose proof keeps_waitForContractDeployment.
  unfold NilContract.deployContract, NilContract.checkShard,
    NilContract.selectStrategy, NilContract.tryInternalDeployment,
    NilContract.externalDeployment, NilContract.deployContractInternal,
    NilContract.deployContractExternal, NilContract.generateRandomSalt,
    getGasPrice, chainId, generateSmartAccount, getBalance, topUp,
    account_deployContract, externalDeploymentTransaction,
    deploymentTransaction_send.
  keeps.
Qed.

Lemma keeps_tryTopUp a amount n :
  keeps_entries (NilContractLegacy.tryTopUp C a amount n).
Proof.
  revert amount. induction n as [|n IH]; intros amount; simpl; unfold topUp; keeps.
Qed.

Lemma keeps_legacy_deployContract CT args :
  keeps_entries (NilContractLegacy.deployContract C CT args).
Proof.
  pose proof keeps_tryTopUp.
  unfold NilContractLegacy.deployContract, NilContractLegacy.selectStrategy,
    NilContractLegacy.tryInternalDeployment, NilContractLegacy.externalDeployment,
    NilContractLegacy.generateRandomSalt,
    getGasPrice, chainId, generateSmartAccount, getCode, waitTillCompleted,
    account_deployContract, externalDeploymentTransaction,
    deploymentTransaction_send.
  keeps.
Qed.

Lemma keeps_verifyCode a n : keeps_entries (SupplyChain.verifyCode C a n).
Proof. induction n as [|n IH]; simpl; unfold getCode; keeps. Qed.

Lemma keeps_deployManufacturerContract BC ABI args :
  keeps_entries (SupplyChain.deployManufacturerContract C BC ABI args).
Proof.
  pose proof keeps_verifyCode.
  unfold SupplyChain.deployManufacturerContract, SupplyChain.generateRandomSalt,
    SupplyChain.generateKeyPair,
    getGasPrice, generateSmartAccount, waitTillCompleted, account_deployContract.
  keeps.
Qed.

End ProviderKeeps.

(** C10. For every shard id, [getClient] returns a client, and after that
    first call every later call with the same id - whatever other
    [getClient] calls came in between - returns that same client object and
    leaves the registry as it is.  No sequence of [getClient] calls and no
    run of the deploy actions replaces or removes an entry of the
    registry. *)
Theorem registry_stable :
  (forall shard r,
      exists c,
        fst (NilContract.getClient shard r) = Some c /\
        forall later,
          let r' := getClients later (snd (NilContract.getClient shard r)) in
          NilContract.getClient shard r' = (Some c, r'))
  /\
  (forall shards r, entries_kept r (getClients shards r))
  /\
  (forall W (C : Collab W) CT args, keeps_entries (NilContract.deployContract C CT args))
  /\
  (forall W (C : Collab W) CT args,
      keeps_entries (NilContractLegacy.deployContract C CT args))
  /\
  (forall W (C : Collab W) BC ABI args,
      keeps_entries (SupplyChain.deployManufacturerContract C BC ABI args)).
Proof.
  split; [|split; [|split; [|split]]].
  - intros shard r. destruct (getClient_returns shard r) as (c & Hfst & Hstored).
    exists c. split; [exact Hfst|]. intros later r'.
    apply getClient_stored. apply getClients_kept. exact Hstored.
  - intros. apply getClients_kept.
  - intros. apply keeps_deployContract.
  - intros. apply keeps_legacy_deployContract.
  - intros. apply keeps_deployManufacturerContract.
Qed.

Lemma registry_stable_witness :
  exists c,
    fst (NilContract.getClient 1 {| clients := ∅; allocated := 0 |}) = Some c /\
    forall later,
      let r' := getClients later
                  (snd (NilContract.getClient 1 {| clients := ∅; allocated := 0 |})) in
      NilContract.getClient 1 r' = (Some c, r').
Proof. exact (proj1 registry_stable 1 {| clients := ∅; allocated := 0 |}). Defined.

Example registry_identity :
  fst (NilContract.getClient 1
         (getClients [1; 2; 1; 3] {| clients := ∅; allocated := 0 |}))
  = Some {| client_ref := 0; client_shardId := 1 |}.
Proof. vm_compute. reflexivity. Qed.

(* ===================================================================== *)
(** ** Salts, fee credit and address calculation *)
(* ===================================================================== *)

Section Salts.

Lemma round53_bounds a :
  0 <= a < 10000 * 2 ^ 53 - 9999 ->
  0 <= Js.round53 a < 10000 * 2 ^ 53.
Proof.
  intros Ha. unfold Js.round53.
  destruct (a <? 2 ^ 53) eqn:Hsmall.
  - apply Z.ltb_lt in Hsmall. lia.
  - apply Z.ltb_ge in Hsmall.
    assert (Hpos : 0 < a) by lia.
    assert (Hlo : 53 <= Z.log2 a) by (apply Z.log2_le_pow2; lia).
    assert (Hhi : Z.log2 a < 67).
    { apply Z.log2_lt_pow2; [lia|].
      change (2 ^ 67) with (16384 * 2 ^ 53). lia. }
    set (sh := Z.log2 a - 52).
    assert (Hsh : 1 <= sh <= 14) by (unfold sh; lia).
    assert (Hp : 2 ^ sh = 2 * 2 ^ (sh - 1)).
    { replace sh with (Z.succ (sh - 1)) at 1 by lia.
      rewrite Z.pow_succ_r by lia. reflexivity. }
    assert (Hhalf : 1 <= 2 ^ (sh - 1) <= 2 ^ 13).
    { split; [pose proof (Z.pow_pos_nonneg 2 (sh - 1)); lia|].
      apply Z.pow_le_mono_r; lia. }
    change (2 ^ 13) with 8192 in Hhalf.
    pose proof (Z.div_mod a (2 ^ sh)) as Hdm.
    pose proof (Z.mod_pos_bound a (2 ^ sh)) as Hmod.
    assert (Hq : 0 <= a / 2 ^ sh) by (apply Z.div_pos; lia).
    set (q := a / 2 ^ sh) in *. set (r := a mod 2 ^ sh) in *.
    set (half := 2 ^ (sh - 1)) in *. set (p := 2 ^ sh) in *.
    assert (Hdm' : a = p * q + r) by (apply Hdm; lia).
    assert (Hmod' : 0 <= r < p) by (apply Hmod; lia).
    cbv zeta.
    destruct (r <? half) eqn:H1; [apply Z.ltb_lt in H1; nia|].
    apply Z.ltb_ge in H1.
    destruct (half <? r) eqn:H2; [apply Z.ltb_lt in H2; nia|].
    apply Z.ltb_ge in H2.
    destruct (Z.even q); nia.
Qed.

Lemma floor_mul_range d : 0 <= Js.floor_mul d 10000 <= 9999.
Proof.
  unfold Js.floor_mul, Js.Math_floor, Js.mul_const.
  assert (Hm : 0 <= Js.ud_m d < 2 ^ 53).
  { unfold Js.ud_m. apply Z.mod_pos_bound. lia. }
  assert (He : 53 <= Js.ud_e d) by (unfold Js.ud_e; lia).
  pose proof (round53_bounds (Js.ud_m d * 10000)) as Hr.
  assert (Hr' : 0 <= Js.round53 (Js.ud_m d * 10000) < 10000 * 2 ^ 53) by (apply Hr; lia).
  assert (Hpow : 2 ^ 53 <= 2 ^ Js.ud_e d) by (apply Z.pow_le_mono_r; lia).
  assert (Hpos : 0 < 2 ^ Js.ud_e d) by lia.
  split.
  - apply Z.div_pos; lia.
  - assert (Js.round53 (Js.ud_m d * 10000) / 2 ^ Js.ud_e d < 10000); [|lia].
    apply Z.div_lt_upper_bound; [lia|]. nia.
Qed.

End Salts.

Section Hex.

Lemma byte_digits b :
  Js.hex_value (Js.hex_digit (Byte.to_N b / 16)) = Some (Z.of_N (Byte.to_N b / 16)) /\
  Js.hex_value (Js.hex_digit (Byte.to_N b mod 16)) = Some (Z.of_N (Byte.to_N b mod 16)) /\
  16 * Z.of_N (Byte.to_N b / 16) + Z.of_N (Byte.to_N b mod 16) = Z.of_N (Byte.to_N b).
Proof. destruct b; vm_compute; auto. Qed.

Lemma parse_hex_toString_hex bs acc :
  Js.parse_hex (Js.toString_hex bs) acc
  = Some (foldl (fun acc b => 256 * acc + Z.of_N (Byte.to_N b)) acc bs).
Proof.
  revert acc. induction bs as [|b rest IH]; intros acc; [reflexivity|].
  destruct (byte_digits b) as (Hhi & Hlo & Hsum).
  cbn [Js.toString_hex Js.parse_hex]. rewrite Hhi. cbn [Js.parse_hex].
  rewrite Hlo, IH. simpl. f_equal. f_equal. lia.
Qed.

Lemma BigInt_of_hex_bytes b rest :
  Js.BigInt_of_hex ("0x" +:+ Js.toString_hex (b :: rest)) = Some (be_value (b :: rest)).
Proof.
  change ("0x" +:+ Js.toString_hex (b :: rest))
    with (String "0" (String "x" (Js.toString_hex (b :: rest)))).
  unfold Js.BigInt_of_hex. cbn [Js.toString_hex].
  change (String (Js.hex_digit (Byte.to_N b / 16))
            (String (Js.hex_digit (Byte.to_N b mod 16)) (Js.toString_hex rest)))
    with (Js.toString_hex (b :: rest)).
  apply parse_hex_toString_hex.
Qed.

Lemma foldl_bytes_bounds bs acc :
  0 <= acc ->
  acc * 256 ^ Z.of_nat (length bs)
  <= foldl (fun acc b => 256 * acc + Z.of_N (Byte.to_N b)) acc bs
  < (acc + 1) * 256 ^ Z.of_nat (length bs).
Proof.
  revert acc. induction bs as [|b rest IH]; intros acc Hacc.
  - simpl. lia.
  - cbn [foldl length]. rewrite Nat2Z.inj_succ, Z.pow_succ_r by lia.
    pose proof (Byte.to_N_bounded b) as Hb.
    assert (Hb' : 0 <= Z.of_N (Byte.to_N b) <= 255) by lia.
    specialize (IH (256 * acc + Z.of_N (Byte.to_N b))).
    assert (Hpow : 0 < 256 ^ Z.of_nat (length rest)) by (apply Z.pow_pos_nonneg; lia).
    destruct IH as [IH1 IH2]; [lia|]. split; nia.
Qed.

Lemma be_value_range bs : 0 <= be_value bs < 256 ^ Z.of_nat (length bs).
Proof.
  pose proof (foldl_bytes_bounds bs 0) as H. unfold be_value. lia.
Qed.

End Hex.

(** C8 (amended). The salt generated by the current nil-contract provider
    and by the supply-chain provider is an integer between 0 and 9,999,
    whatever double in [0,1) [Math.random] returns.  The earlier revision
    of the nil-contract provider reads eight random bytes as one big-endian
    integer, so its salt lies between 0 and 2^64 - 1. *)
Theorem salt_range :
  (forall W (C : Collab W) s,
      exists salt s' t,
        NilContract.generateRandomSalt C s = (Ok salt, s', t) /\ 0 <= salt <= 9999)
  /\
  (forall W (C : Collab W) s,
      exists salt s' t,
        SupplyChain.generateRandomSalt C s = (Ok salt, s', t) /\ 0 <= salt <= 9999)
  /\
  (forall W (C : Collab W) s bs w',
      c_randomBytes C 8 (world s) = (bs, w') ->
      length bs = 8%nat ->
      exists s' t,
        NilContractLegacy.generateRandomSalt C s = (Ok (be_value bs), s', t) /\
        0 <= be_value bs < 2 ^ 64).
Proof.
  split; [|split].
  - intros W C s. unfold NilContract.generateRandomSalt, bind, Math_random, ret.
    destruct (c_random C (world s)) as [d w']. simpl.
    eexists _, _, _. split; [reflexivity | apply floor_mul_range].
  - intros W C s. unfold SupplyChain.generateRandomSalt, bind, Math_random, ret.
    destruct (c_random C (world s)) as [d w']. simpl.
    eexists _, _, _. split; [reflexivity | apply floor_mul_range].
  - intros W C s bs w' Hbs Hlen.
    unfold NilContractLegacy.generateRandomSalt, bind, crypto_randomBytes.
    rewrite Hbs. cbv beta iota zeta.
    destruct bs as [|b rest]; [discriminate|].
    rewrite BigInt_of_hex_bytes. unfold ret.
    eexists _, _. split; [reflexivity|].
    pose proof (be_value_range (b :: rest)) as Hr. rewrite Hlen in Hr.
    change (256 ^ Z.of_nat 8) with (2 ^ 64) in Hr. exact Hr.
Qed.

Lemma salt_range_witness :
  exists s' t,
    NilContractLegacy.generateRandomSalt Sim.collab (Sim.start Sim.healthy)
    = (Ok (be_value (repeat Byte.xff 8)), s', t) /\
    0 <= be_value (repeat Byte.xff 8) < 2 ^ 64.
Proof.
  apply (proj2 (proj2 salt_range) Sim.World Sim.collab (Sim.start Sim.healthy)
           (repeat Byte.xff 8) Sim.healthy).
  - reflexivity.
  - reflexivity.
Defined.

(** The earlier revision's salt for the random bytes ff ff ff ff ff ff ff ff
    is 2^64 - 1, far above 9,999. *)
Lemma salt_range_counterexample :
  outcome (NilContractLegacy.generateRandomSalt Sim.collab (Sim.start Sim.healthy))
  = Ok 18446744073709551615
  /\ 9999 < 18446744073709551615.
Proof. split; [vm_compute; reflexivity | lia]. Qed.

(** C4 (the code does not do what the claim and its own comments say).
    The fee credit is the gas price times an integer multiplier: 2 for the
    token class, 2 for the NFT class (the code's [5n * 10n / 20n], commented
    as 2.5) and 12 for every other class (the code's [12n * 10n / 10n],
    commented as 1.2).  At gas price 10 the NFT class gets 20, not 25, and
    a simple counter gets 120, not 12. *)
Theorem fee_credit_multipliers :
  (forall g, NilContract.feeCredit "TOKEN" g = 2 * g) /\
  (forall g, NilContract.feeCredit "NFT" g = 2 * g) /\
  (forall g, NilContract.feeCredit "COUNTER" g = 12 * g) /\
  NilContract.feeCredit "NFT" 10 = 20 /\
  2 * NilContract.feeCredit "NFT" 10 <> 5 * 10 /\
  NilContract.feeCredit "COUNTER" 10 = 120 /\
  10 * NilContract.feeCredit "COUNTER" 10 <> 12 * 10.
Proof.
  repeat split; try reflexivity; try (intros g; reflexivity);
    vm_compute; discriminate.
Qed.

(** C9. Whatever shard id, salt, byte code, ABI and chain id it is given,
    the current provider's [calculateContractAddress] returns the hex
    encoding of twenty zero bytes whenever the byte code decodes (it throws
    otherwise): its result does not depend on its arguments, and it differs
    from every address other than the all-zero one. *)
Theorem calculateContractAddress_zero
    (hexToBytes : string -> option (list byte))
    (shardId salt : Z) (bytecode : string) (abi : list string) (chainId : Z)
    (bytes : list byte) :
  hexToBytes bytecode = Some bytes ->
  NilContract.calculateContractAddress hexToBytes shardId salt bytecode abi chainId
  = Ok zero_address
  /\ zero_address = Js.bytesToHex (Js.new_Uint8Array 20)
  /\ (forall shardId' salt' bytecode' abi' chainId' bytes',
         hexToBytes bytecode' = Some bytes' ->
         NilContract.calculateContractAddress hexToBytes shardId' salt' bytecode' abi'
           chainId'
         = NilContract.calculateContractAddress hexToBytes shardId salt bytecode abi
             chainId)
  /\ (forall landed : Address,
         landed <> zero_address ->
         NilContract.calculateContractAddress hexToBytes shardId salt bytecode abi chainId
         <> Ok landed).
Proof.
  intros Hdec.
  assert (Hzero : forall sh sa bc ab ch bs,
             hexToBytes bc = Some bs ->
             NilContract.calculateContractAddress hexToBytes sh sa bc ab ch
             = Ok zero_address).
  { intros sh sa bc ab ch bs Hbc. unfold NilContract.calculateContractAddress.
    rewrite Hbc. reflexivity. }
  split; [eapply Hzero; exact Hdec|]. split; [reflexivity|]. split.
  - intros ? ? ? ? ? ? Hdec'. rewrite (Hzero _ _ _ _ _ _ Hdec'), (Hzero _ _ _ _ _ _ Hdec).
    reflexivity.
  - intros landed Hne. rewrite (Hzero _ _ _ _ _ _ Hdec). congruence.
Qed.

Lemma calculateContractAddress_zero_witness :
  NilContract.calculateContractAddress Js.hexToBytes 1 42 "0xdead" [] 1
  = Ok zero_address.
Proof.
  refine (proj1 (calculateContractAddress_zero Js.hexToBytes 1 42 "0xdead" [] 1
                   ["222"; "173"]%byte _)).
  reflexivity.
Defined.

Lemma bounded_retries_witness :
  exists (ok : bool) s' t,
    NilContract.ensureAdequateFunding Sim.collab "0xa" 1001 Sim.client1
      (Sim.start Sim.faucet_down) = (Ok ok, s', t) /\
    (length (faucet_amounts t) <= 3)%nat /\
    total_sleep t <= 6000 /\
    (Forall (fun e => ~ sufficient_read "0xa" 1001 e) t -> ok = false).
Proof.
  exact (proj2 (bounded_retries Sim.collab Sim.client1 "0xa" "0xhash" 1001
                  (Sim.start Sim.faucet_down))).
Defined.

Example poller_exhausts_thirty_polls :
  let x := NilContract.waitForContractDeployment Sim.collab Sim.client1 "0xc0de" "0xhash"
             (Sim.start Sim.no_code) in
  outcome x = Ok false /\ code_polls (trace x) = 30%nat /\ total_sleep (trace x) = 570000.
Proof. vm_compute. repeat split. Qed.
